(** * CSORCA: Constant Speed Optimal Reciprocal Collision Avoidance

    A shallow embedding of [csorca.py] and the properties of its
    geometry predicates, conflict detector, exhaust-vector solver,
    half-plane generation, heading computation and simulation stepper.

    Numbers: the program computes with numpy float64 values.  They are
    modelled here by the real numbers [R] of the Standard Library, that
    is, by exact arithmetic: rounding, infinities and NaN are outside the
    model.  Where the program divides by zero numpy yields inf or nan,
    while the division of [R] yields a real number; the theorems that
    depend on the value of such a quotient carry the hypothesis that makes
    it well defined, the others compare expressions that the program
    evaluates in the same way on both sides.  Counters ([step], [alerts],
    [separation_losses]) are Python integers, modelled by [Z].

    State: the program mutates the aircraft of a list in place; the model
    passes the [Simulation] explicitly and updates the list by index.

    The numerical solver [scipy.optimize.minimize] is a library outside
    the program: it is a [Variable] of the section that embeds
    [Aircraft.compute_heading], and the program hands it the optimisation
    problem as a record.  The rendering ([Simulation.display]) does not
    change the state and is left out. *)

From Stdlib Require Import Reals Lra Lia ZArith.
From stdpp Require Import base list.

Open Scope R_scope.

(** ** Booleans of real comparisons *)

(** [x <= y] and [x < y] as the booleans the program branches on. *)
Definition Rleb (x y : R) : bool := if Rle_dec x y then true else false.
Definition Rltb (x y : R) : bool := if Rlt_dec x y then true else false.

(** Python's [int(b)] and the implicit [bool -> float] of [c1 * (a <= b)]. *)
Definition int_of_bool (b : bool) : Z := if b then 1%Z else 0%Z.
Definition float_of_bool (b : bool) : R := if b then 1 else 0.

(** ** Two-dimensional vectors ([np.array] of length 2) *)

Definition Vec : Type := (R * R)%type.

Definition vadd (a b : Vec) : Vec := (a.1 + b.1, a.2 + b.2).
Definition vsub (a b : Vec) : Vec := (a.1 - b.1, a.2 - b.2).
Definition vneg (a : Vec) : Vec := (- a.1, - a.2).
Definition vscale (k : R) (a : Vec) : Vec := (k * a.1, k * a.2).
(** [a / k] on arrays. *)
Definition vdiv (a : Vec) (k : R) : Vec := (a.1 / k, a.2 / k).
(** [a.dot(b)] *)
Definition dot (a b : Vec) : R := a.1 * b.1 + a.2 * b.2.
(** [np.linalg.norm(a)] *)
Definition norm (a : Vec) : R := sqrt (a.1 ^ 2 + a.2 ^ 2).
(** [np.linalg.det(np.array((a, b)))]: the matrix whose rows are [a], [b]. *)
Definition det (a b : Vec) : R := a.1 * b.2 - a.2 * b.1.

(** A 2x2 matrix given by its two rows, and [m.dot(v)]. *)
Definition Mat : Type := (Vec * Vec)%type.
Definition mdot (m : Mat) (v : Vec) : Vec := (dot m.1 v, dot m.2 v).

(** ** Some useful functions *)

(** Check if a point is inside the cone from A, directed by v1 and v2 and
    containing B. *)
Definition is_inside_the_cone (point pointA pointB v1 v2 : Vec) : bool :=
  let a_b := vsub pointB pointA in
  let a_point := vsub point pointA in
  let t1 := det a_point v1 * det a_b v1 in
  let t2 := det a_point v2 * det a_b v2 in
  Rleb 0 t1 && Rleb 0 t2.

(** Check if a point is inside a circle of center [center] and radius
    [radius]. *)
Definition is_inside_the_circle (point center : Vec) (radius : R) : bool :=
  Rleb ((center.1 - point.1) ^ 2 + (center.2 - point.2) ^ 2) (radius ^ 2).

(** ** Aircraft representation *)

(** A half-plane of [semi_plan] is the Python list [[c0, c1, threshold]]. *)
Definition SemiPlan : Type := list R.

Record Aircraft : Type := mkAircraft {
  position : Vec;
  trajectory : list Vec;
  heading : Vec;
  destination : Vec;
  semi_plan : list SemiPlan
}.

(** [Aircraft.__init__] *)
Definition new_aircraft (pos hd dest : Vec) : Aircraft :=
  mkAircraft pos [pos] hd dest [].

Definition set_heading (h : Vec) (a : Aircraft) : Aircraft :=
  mkAircraft (position a) (trajectory a) h (destination a) (semi_plan a).
Definition set_position (p : Vec) (a : Aircraft) : Aircraft :=
  mkAircraft p (trajectory a) (heading a) (destination a) (semi_plan a).
Definition set_trajectory (t : list Vec) (a : Aircraft) : Aircraft :=
  mkAircraft (position a) t (heading a) (destination a) (semi_plan a).
Definition set_semi_plan (sp : list SemiPlan) (a : Aircraft) : Aircraft :=
  mkAircraft (position a) (trajectory a) (heading a) (destination a) sp.

(** The class attributes [theta_max = np.radians(9)] and
    [theta_min = np.radians(-9)]; the program never calls
    [set_turning_rates], so they keep these values. *)
Definition radians (deg : R) : R := deg * PI / 180.
Definition theta_max : R := radians 9.
Definition theta_min : R := radians (-9).

(** The rotation matrix written out in [detect_conflict] as [r1] and in
    [compute_heading] as [r_max], [r_min]. *)
Definition rot (theta : R) : Mat :=
  ((cos theta, - sin theta), (sin theta, cos theta)).
(** The matrix written out in [detect_conflict] as [r2]. *)
Definition rot_inv (theta : R) : Mat :=
  ((cos theta, sin theta), (- sin theta, cos theta)).

(** [Aircraft.detect_conflict]: the conflict flag and the tuple
    [geom = (vr, a_t1, a_t2)]. *)
Definition detect_conflict (self other : Aircraft) (d tau : R)
  : bool * (Vec * Vec * Vec) :=
  let a_b := vsub (position other) (position self) in
  let ro := norm a_b in
  let vr := vsub (heading self) (heading other) in
  let theta := atan (d / ro) in
  let r1 := rot theta in
  let r2 := rot_inv theta in
  let a_t1 := mdot r1 a_b in
  let a_t2 := mdot r2 a_b in
  let geom := (vr, a_t1, a_t2) in
  let point := vadd (position self) vr in
  let conflict :=
    is_inside_the_cone point (position self) (position other) a_t1 a_t2
    && (is_inside_the_circle vr (vdiv a_b tau) (d / tau)
        || negb (is_inside_the_circle vr (0, 0) (a_b.1 / tau))) in
  (conflict, geom).

(** [Aircraft.exhaust_vector] (the c vector of [Durand, 2018]); the result
    is the blend [c1*(|c1| <= |c2|) + c2*(|c1| > |c2|)] of the source. *)
Definition exhaust_candidates (vr a_t1 a_t2 : Vec) : Vec * Vec :=
  let u1 := vscale (dot a_t1 vr / norm a_t1 ^ 2) a_t1 in
  let u2 := vscale (dot a_t2 vr / norm a_t2 ^ 2) a_t2 in
  (vsub u1 vr, vsub u2 vr).

Definition exhaust_vector (vr a_t1 a_t2 : Vec) : Vec :=
  let '(c1, c2) := exhaust_candidates vr a_t1 a_t2 in
  vadd (vscale (float_of_bool (Rleb (norm c1) (norm c2))) c1)
       (vscale (float_of_bool (Rltb (norm c2) (norm c1))) c2).

(** [list(c) + list([t])] *)
Definition half_plane (c : Vec) (t : R) : SemiPlan := [c.1; c.2; t].

(** [Aircraft.compute_semi_plan]: the generator yields two lists, which the
    caller unpacks as [p_ij, p_ji]. *)
Definition compute_semi_plan (self other : Aircraft) (d tau : R)
  : list SemiPlan * list SemiPlan :=
  let '(conflict, geom) := detect_conflict self other d tau in
  if conflict then
    let '(vr, a_t1, a_t2) := geom in
    let c := exhaust_vector vr a_t1 a_t2 in
    let p_ij := half_plane c (dot c (vneg (vadd (heading self) (vdiv c 2)))) in
    let p_ji := half_plane (vneg c) (dot c (vsub (heading other) (vdiv c 2))) in
    ([p_ij], [p_ji])
  else ([], []).

(** ** The optimisation problem handed to [scipy.optimize.minimize] *)

(** A bound of a constraint: a float or [np.inf]. *)
Inductive Bound : Type :=
| Finite (r : R)
| PlusInf.

(** [LinearConstraint(A, lb, ub)] *)
Record LinearConstraint : Type := mkLinearConstraint {
  lc_A : list (list R);
  lc_lb : list R;
  lc_ub : list Bound
}.

(** [NonlinearConstraint(fun, lb, ub, jac=..., hess=...)] *)
Record NonlinearConstraint : Type := mkNonlinearConstraint {
  nc_fun : Vec -> R;
  nc_lb : R;
  nc_ub : R;
  nc_jac : Vec -> list R;
  nc_hess : Vec -> list R -> Mat
}.

(** The arguments of the call [minimize(obj, x0, method='trust-constr',
    jac=obj_jac, hess=obj_hess, constraints=[linear, nonlinear])]. *)
Record Problem : Type := mkProblem {
  pb_obj : Vec -> R;
  pb_x0 : Vec;
  pb_jac : Vec -> list R;
  pb_hess : Vec -> Mat;
  pb_linear : LinearConstraint;
  pb_nonlinear : NonlinearConstraint
}.

(** The [OptimizeResult]: the point [res.x] and the convergence status
    that the solver reports. *)
Record OptimizeResult : Type := mkOptimizeResult {
  res_x : Vec;
  res_success : bool
}.

(** [sp[0:-1]] and [sp[-1]] of a half-plane [sp]; the program only stores
    half-planes of three floats, [sp[-1]] of an empty list (an IndexError in
    Python) does not occur. *)
Definition sp_coef (sp : SemiPlan) : list R := removelast sp.
Definition sp_threshold (sp : SemiPlan) : R := List.last sp 0.

(** [Aircraft.reached_destination] *)
Definition reached_destination (a : Aircraft) (epsilon : R) : bool :=
  Rleb (norm (vsub (destination a) (position a))) epsilon.

(** [Aircraft.move] *)
Definition aircraft_move (a : Aircraft) (ts : R) : Aircraft :=
  set_position (vadd (position a) (vscale ts (heading a))) a.

Section Solver.

(** The external solver. *)
Variable minimize : Problem -> OptimizeResult.

(** The target heading [h_star] of [obj] and [obj_jac]. *)
Definition h_star (self : Aircraft) : Vec :=
  let h := vsub (destination self) (position self) in
  vscale (norm (heading self) / norm h) h.

(** The two turning-rate rows. *)
Definition turning_rate_constraints (self : Aircraft) : list (list R) :=
  let h_max := mdot (rot theta_max) (heading self) in
  let h_min := mdot (rot theta_min) (heading self) in
  [[h_max.2; - h_max.1]; [h_min.1; - h_min.2]].

(** The problem built in the conflict branch of [compute_heading]. *)
Definition heading_problem (self : Aircraft) : Problem :=
  let obj (h : Vec) :=
    ((h_star self).1 - h.1) ^ 2 + ((h_star self).2 - h.2) ^ 2 in
  let obj_jac (h : Vec) :=
    [-2 * ((h_star self).1 - h.1); -2 * ((h_star self).2 - h.2)] in
  let obj_hess (h : Vec) : Mat := ((2, 0), (0, 2)) in
  let lin_const_list :=
    map sp_coef (semi_plan self) ++ turning_rate_constraints self in
  let nb_lin_constr := length lin_const_list in
  let lb := map sp_threshold (semi_plan self)
            ++ replicate (nb_lin_constr - length (semi_plan self)) 0 in
  let ub := replicate nb_lin_constr PlusInf in
  let linear_constraint := mkLinearConstraint lin_const_list lb ub in
  let cs_constraint (h : Vec) := h.1 ^ 2 + h.2 ^ 2 - norm (heading self) ^ 2 in
  let cs_jacobian (h : Vec) := [2 * h.1; 2 * h.2] in
  let cs_hessian (h : Vec) (v : list R) : Mat :=
    let v0 := nth 0 v 0 in ((v0 * 2, v0 * 0), (v0 * 0, v0 * 2)) in
  let nonlinear_constraint :=
    mkNonlinearConstraint cs_constraint 0 0 cs_jacobian cs_hessian in
  mkProblem obj (heading self) obj_jac obj_hess
            linear_constraint nonlinear_constraint.

(** [Aircraft.compute_heading] *)
Definition compute_heading (self : Aircraft) : Vec :=
  match semi_plan self with
  | [] =>
      let h_ideal :=
        vdiv (vsub (destination self) (position self))
             (norm (vsub (destination self) (position self))) in
      h_ideal
  | _ :: _ =>
      let res := minimize (heading_problem self) in
      res_x res
  end.

(** ** Simulation representation *)

Record Simulation : Type := mkSimulation {
  aircraft : list Aircraft;
  d : R;
  tau : R;
  time_step : R;
  area_size : R;
  time : R;
  step : Z;
  alerts : Z;
  separation_losses : Z
}.

(** [Simulation.__init__] with its defaults written out by the caller. *)
Definition new_simulation (acs : list Aircraft) (d tau time_step area_size : R)
  : Simulation :=
  mkSimulation acs d tau time_step area_size 0 0 0 0.

Definition set_aircraft (acs : list Aircraft) (s : Simulation) : Simulation :=
  mkSimulation acs (d s) (tau s) (time_step s) (area_size s) (time s)
               (step s) (alerts s) (separation_losses s).
Definition set_alerts (n : Z) (s : Simulation) : Simulation :=
  mkSimulation (aircraft s) (d s) (tau s) (time_step s) (area_size s) (time s)
               (step s) n (separation_losses s).
Definition set_separation_losses (n : Z) (s : Simulation) : Simulation :=
  mkSimulation (aircraft s) (d s) (tau s) (time_step s) (area_size s) (time s)
               (step s) (alerts s) n.
Definition set_clock (t : R) (n : Z) (s : Simulation) : Simulation :=
  mkSimulation (aircraft s) (d s) (tau s) (time_step s) (area_size s) t
               n (alerts s) (separation_losses s).

(** [Simulation.move]; [reached_destination()] is called with its default
    [epsilon=3]. *)
Definition move_one (ts : R) (a : Aircraft) : Aircraft :=
  let a' := if negb (reached_destination a 3) then aircraft_move a ts else a in
  set_trajectory (trajectory a' ++ [position a']) a'.

Definition move (s : Simulation) : Simulation :=
  set_aircraft (move_one (time_step s) <$> aircraft s) s.

(** [semi_plan.extend(p)] on the aircraft of index [i]. *)
Definition extend_semi_plan (p : list SemiPlan) (a : Aircraft) : Aircraft :=
  set_semi_plan (semi_plan a ++ p) a.

(** The body of the inner loop of [run_one_step], for the pair [(i, j)].
    The indices come from [range(N)], so both lookups succeed; an index out
    of range (an IndexError in Python) leaves the state as it is. *)
Definition scan_pair (i j : nat) (s : Simulation) : Simulation :=
  match aircraft s !! i, aircraft s !! j with
  | Some ai, Some aj =>
      let conflict := (detect_conflict ai aj (d s) (tau s)).1 in
      let s1 := set_alerts (alerts s + int_of_bool conflict) s in
      let '(p_ij, p_ji) := compute_semi_plan ai aj (d s) (tau s) in
      let s2 := set_aircraft (alter (extend_semi_plan p_ij) i (aircraft s1)) s1 in
      set_aircraft (alter (extend_semi_plan p_ji) j (aircraft s2)) s2
  | _, _ => s
  end.

(** [for j in range(i+1, N)] *)
Definition scan_from (i N : nat) (s : Simulation) : Simulation :=
  foldl (fun s j => scan_pair i j s) s (seq (S i) (N - S i)).

(** New heading of aircraft [i], reset of its [semi_plan]. *)
Definition resolve_aircraft (a : Aircraft) : Aircraft :=
  set_semi_plan [] (set_heading (compute_heading a) a).

(** One iteration of the outer loop of [run_one_step]; the state carries
    the local [done]. *)
Definition step_agent (N : nat) (sd : Simulation * bool) (i : nat)
  : Simulation * bool :=
  let s1 := scan_from i N sd.1 in
  let s2 := set_aircraft (alter resolve_aircraft i (aircraft s1)) s1 in
  let reached := match aircraft s2 !! i with
                 | Some a => reached_destination a 3
                 | None => true
                 end in
  (s2, sd.2 && reached).

(** The first loop of [run_one_step] (lines 252-271). *)
Definition scan_and_resolve (s : Simulation) : Simulation * bool :=
  let N := length (aircraft s) in
  foldl (step_agent N) (s, true) (seq 0 N).

(** The last loop of [run_one_step]: separation losses. *)
Definition separation_pair (i j : nat) (s : Simulation) : Simulation :=
  match aircraft s !! i, aircraft s !! j with
  | Some ai, Some aj =>
      set_separation_losses
        (separation_losses s
         + int_of_bool (Rltb (norm (vsub (position ai) (position aj))) (d s))) s
  | _, _ => s
  end.

Definition check_separation (s : Simulation) : Simulation :=
  let N := length (aircraft s) in
  foldl (fun s i =>
           foldl (fun s j => separation_pair i j s) s (seq (S i) (N - S i)))
        s (seq 0 N).

(** [Simulation.run_one_step] with [display=False]: the new state and the
    returned [bool(done)]. *)
Definition run_one_step (s : Simulation) : Simulation * bool :=
  let '(s1, done) := scan_and_resolve s in
  let s2 := move s1 in
  let s3 := set_clock (time s2 + time_step s2) (step s2 + 1) s2 in
  let s4 := check_separation s3 in
  (s4, done).

(** [Simulation.run]: the [while not done] loop, with the number of
    iterations bounded by [fuel]; [None] when the fuel runs out before
    [done].  The rendering collaborator does not change the state. *)
Fixpoint run (fuel : nat) (s : Simulation) : option Simulation :=
  match fuel with
  | O => None
  | S fuel' =>
      let '(s', done) := run_one_step s in
      if done then Some s' else run fuel' s'
  end.

End Solver.

(** * Definitions used to state the properties *)

(** ** Geometry in the words of the design *)

(** Rotation of a vector by the angle [theta]. *)
Definition rotate (theta : R) (v : Vec) : Vec :=
  (cos theta * v.1 - sin theta * v.2, sin theta * v.1 + cos theta * v.2).

(** A point is on the same side of an edge as a reference when the two
    cross products against the edge have a non-negative product. *)
Definition same_side (edge u w : Vec) : Prop := 0 <= det u edge * det w edge.

Definition point_in_cone (point apex reference edge1 edge2 : Vec) : Prop :=
  same_side edge1 (vsub point apex) (vsub reference apex)
  /\ same_side edge2 (vsub point apex) (vsub reference apex).

(** Squared distance to the center at most the squared radius. *)
Definition point_in_disk (point center : Vec) (radius : R) : Prop :=
  (point.1 - center.1) ^ 2 + (point.2 - center.2) ^ 2 <= radius ^ 2.

(** ** Pairs of aircraft on a given state *)

(** What the pairwise work reads of an aircraft: position and heading. *)
Definition kinematics (a : Aircraft) : Vec * Vec := (position a, heading a).
Arguments kinematics : simpl never.

(** The two lists that the pair [(i, j)] of the list [l] yields. *)
Definition plans (l : list Aircraft) (D T : R) (i j : nat)
  : list SemiPlan * list SemiPlan :=
  match l !! i, l !! j with
  | Some ai, Some aj => compute_semi_plan ai aj D T
  | _, _ => ([], [])
  end.

(** The conflict flag of the pair [p] of the list [l]. *)
Definition conflict_at (l : list Aircraft) (D T : R) (p : nat * nat) : bool :=
  match l !! p.1, l !! p.2 with
  | Some ai, Some aj => (detect_conflict ai aj D T).1
  | _, _ => false
  end.

(** The part of the pair [p] that goes to the aircraft of index [k]. *)
Definition piece (l : list Aircraft) (D T : R) (k : nat) (p : nat * nat)
  : list SemiPlan :=
  if (k =? p.1)%nat then (plans l D T p.1 p.2).1
  else if (k =? p.2)%nat then (plans l D T p.1 p.2).2
  else [].

(** The constraints that the pairs [ps], scanned on the state [frozen], give
    to the aircraft of index [k]. *)
Definition accumulated (frozen : list Aircraft) (D T : R)
           (ps : list (nat * nat)) (k : nat) : list SemiPlan :=
  flat_map (piece frozen D T k) ps.

(** The test of the last loop of [run_one_step] on the pair [p] of the list
    [l]. *)
Definition close_at (l : list Aircraft) (D : R) (p : nat * nat) : bool :=
  match l !! p.1, l !! p.2 with
  | Some ai, Some aj => Rltb (norm (vsub (position ai) (position aj))) D
  | _, _ => false
  end.

(** Number of pairs of a list that satisfy a test. *)
Definition count_pairs (f : nat * nat -> bool) (ps : list (nat * nat)) : Z :=
  Z.of_nat (length (List.filter f ps)).

(** The unordered pairs of [range(N)], in the order of the nested loops:
    [row i N] is the inner loop of index [i], [pairs_upto N i] the pairs
    scanned by the first [i] iterations of the outer loop. *)
Definition row (i N : nat) : list (nat * nat) :=
  (fun j => (i, j)) <$> seq (S i) (N - S i).
Definition all_pairs (N : nat) : list (nat * nat) :=
  flat_map (fun i => row i N) (seq 0 N).
Definition pairs_upto (N i : nat) : list (nat * nat) :=
  flat_map (fun i' => row i' N) (seq 0 i).

Definition valid_pair (N : nat) (p : nat * nat) : Prop :=
  p.1 <> p.2 /\ (p.1 < N)%nat /\ (p.2 < N)%nat.

Definition swap_pair (p : nat * nat) : nat * nat := (p.2, p.1).

(** A pair as the nested loops enumerate it: smaller index first. *)
Definition unorder (p : nat * nat) : nat * nat :=
  if (p.1 <=? p.2)%nat then p else swap_pair p.

(** The scan of a list of pairs, in order. *)
Definition scan_list (ps : list (nat * nat)) (s : Simulation) : Simulation :=
  foldl (fun s p => scan_pair p.1 p.2 s) s ps.

(** The state after the scan of a list of pairs, in closed form: every
    aircraft has received its pieces, computed on the state before the scan,
    and [alerts] has grown by the number of pairs in conflict. *)
Definition scanned (ps : list (nat * nat)) (s : Simulation) : Simulation :=
  set_alerts
    (alerts s + count_pairs (conflict_at (aircraft s) (d s) (tau s)) ps)
    (set_aircraft
       (imap (fun k a =>
                extend_semi_plan (accumulated (aircraft s) (d s) (tau s) ps k) a)
             (aircraft s))
       s).

(** ** Changes of frame *)

(** The aircraft [a] seen from a frame translated by [w] and moving at
    velocity [u]: its position is shifted by [w], its heading by [u]. *)
Definition reframe (w u : Vec) (a : Aircraft) : Aircraft :=
  set_heading (vadd (heading a) u) (set_position (vadd (position a) w) a).

(** ** Destination *)

Definition distance_to_go (a : Aircraft) : R :=
  norm (vsub (destination a) (position a)).

(** Within the tolerance [epsilon = 3] of the destination. *)
Definition within_epsilon (a : Aircraft) : Prop := distance_to_go a <= 3.

(** The unit vector from the position toward the destination. *)
Definition toward_destination (a : Aircraft) : Vec :=
  vdiv (vsub (destination a) (position a)) (distance_to_go a).


(** ** Feasibility of a point for the optimisation problem *)

(** The product of a row of the constraint matrix with the unknown [h]. *)
Definition row_dot (row : list R) (h : Vec) : R :=
  nth 0 row 0 * h.1 + nth 1 row 0 * h.2.

Definition below_bound (x : R) (b : Bound) : Prop :=
  match b with
  | Finite r => x <= r
  | PlusInf => True
  end.

(** A point satisfies [lb <= A h <= ub] and [lb <= fun h <= ub] within the
    tolerance [eps]. *)
Definition linear_feasible (eps : R) (lc : LinearConstraint) (h : Vec) : Prop :=
  Forall2 (fun row lb => lb - eps <= row_dot row h) (lc_A lc) (lc_lb lc)
  /\ Forall2 (fun row ub => below_bound (row_dot row h - eps) ub)
             (lc_A lc) (lc_ub lc).

Definition nonlinear_feasible (eps : R) (nc : NonlinearConstraint) (h : Vec)
  : Prop :=
  nc_lb nc - eps <= nc_fun nc h <= nc_ub nc + eps.







(** ** The two-phase protocol and the iterates of a run *)

Section Protocol.

Variable minimize : Problem -> OptimizeResult.

(** The strict two-phase protocol of the design, over an enumeration [ps]
    of the pairs.  Phase 1 scans every pair on the state frozen at the start
    of the step: [alerts] grows by the number of pairs in conflict and every
    aircraft accumulates the pieces of the pairs.  Phase 2 resolves every
    aircraft on its accumulated set and clears the set.  The status is that
    of the frozen positions. *)
Definition two_phase (ps : list (nat * nat)) (s : Simulation)
  : Simulation * bool :=
  let frozen := aircraft s in
  let new_alerts :=
    (alerts s + count_pairs (conflict_at frozen (d s) (tau s)) ps)%Z in
  let resolved :=
    imap (fun k a =>
            resolve_aircraft minimize
              (extend_semi_plan (accumulated frozen (d s) (tau s) ps k) a))
         frozen in
  (set_alerts new_alerts (set_aircraft resolved s),
   forallb (fun a => reached_destination a 3) frozen).

(** The aircraft of index [k] after [i] iterations of the outer loop of
    [run_one_step]. *)
Definition partial_state (frozen : list Aircraft) (D T : R) (N i k : nat)
           (a : Aircraft) : Aircraft :=
  if (k <? i)%nat then
    resolve_aircraft minimize
      (extend_semi_plan (accumulated frozen D T (pairs_upto N (S k)) k) a)
  else extend_semi_plan (accumulated frozen D T (pairs_upto N i) k) a.

(** The successive states of the loop of [run]. *)
Fixpoint iterate_steps (k : nat) (s : Simulation) : Simulation :=
  match k with
  | O => s
  | S k' => iterate_steps k' (run_one_step minimize s).1
  end.


End Protocol.

(** ** A concrete solver and scenarios *)

(** A solver that gives back its initial guess and reports failure. *)
Definition solver_x0 (pb : Problem) : OptimizeResult :=
  mkOptimizeResult (pb_x0 pb) false.

(** Two aircraft on the x axis, 4 apart, closing at relative speed 3, with
    separation distance 3 and lookahead 1. *)
Definition ac_west : Aircraft := new_aircraft (0, 0) (2, 0) (100, 0).
Definition ac_east : Aircraft := new_aircraft (4, 0) (-1, 0) (-100, 0).
Definition encounter : Simulation :=
  mkSimulation [ac_west; ac_east] 3 1 3 500 0 0 0 0.


(** Aircraft 0 of [crossing] at the moment [run_one_step] computes its new
    heading. *)
Definition cornered : Aircraft :=
  mkAircraft (0, 0) [(0, 0)] (0, 1) (0, 100)
             [half_plane (- 1 / 100, 0) (- 1 / 20000)].

(** One aircraft, 4 away from its destination. *)
Definition lone_aircraft : Aircraft := new_aircraft (0, 0) (1, 0) (4, 0).
Definition lone : Simulation := mkSimulation [lone_aircraft] 1000 3 3 500 0 0 0 0.



(** Two aircraft flying apart. *)
Definition ac_left : Aircraft := new_aircraft (0, 0) (-1, 0) (-100, 0).
Definition ac_right : Aircraft := new_aircraft (8, 0) (1, 0) (100, 0).
Definition parting : Simulation :=
  mkSimulation [ac_left; ac_right] 5 3 3 500 0 0 0 0.

(** One aircraft, 2 away from its destination. *)
Definition arrived_aircraft : Aircraft := new_aircraft (0, 0) (1, 0) (2, 0).
Definition arrived : Simulation :=
  mkSimulation [arrived_aircraft] 1000 3 3 500 0 0 0 0.

(** * Properties *)

(** ** Comparisons and vectors *)

Lemma Rleb_true_iff (x y : R) : Rleb x y = true <-> x <= y.
Proof. unfold Rleb. destruct (Rle_dec x y); split; auto; discriminate. Qed.

Lemma Rleb_false_iff (x y : R) : Rleb x y = false <-> y < x.
Proof.
  unfold Rleb. destruct (Rle_dec x y); split; auto; try discriminate; lra.
Qed.

Lemma Rltb_true_iff (x y : R) : Rltb x y = true <-> x < y.
Proof. unfold Rltb. destruct (Rlt_dec x y); split; auto; discriminate. Qed.

Lemma Rltb_false_iff (x y : R) : Rltb x y = false <-> y <= x.
Proof.
  unfold Rltb. destruct (Rlt_dec x y); split; auto; try discriminate; lra.
Qed.

Lemma sum_sq_nonneg (x y : R) : 0 <= x ^ 2 + y ^ 2.
Proof. nra. Qed.

Lemma norm_nonneg (a : Vec) : 0 <= norm a.
Proof. apply sqrt_pos. Qed.

Lemma norm_sq (a : Vec) : norm a ^ 2 = a.1 ^ 2 + a.2 ^ 2.
Proof.
  unfold norm. rewrite <- Rsqr_pow2, Rsqr_sqrt; [reflexivity|].
  apply sum_sq_nonneg.
Qed.

(** The norm of a vector whose squared length is a known square. *)
Lemma norm_eq (a : Vec) (r : R) : 0 <= r -> a.1 ^ 2 + a.2 ^ 2 = r ^ 2 -> norm a = r.
Proof.
  intros Hr H. unfold norm. rewrite H. apply sqrt_pow2. exact Hr.
Qed.

Lemma norm_vneg (a : Vec) : norm (vneg a) = norm a.
Proof. unfold norm, vneg; cbn [fst snd]. f_equal. ring. Qed.

Lemma norm_zero_iff (a : Vec) : norm a = 0 <-> a = (0, 0).
Proof.
  destruct a as [x y]. split.
  - intros H. pose proof (norm_sq (x, y)) as Hs. rewrite H in Hs. simpl in Hs.
    assert (x = 0) by nra. assert (y = 0) by nra. subst. reflexivity.
  - intros H. injection H as -> ->. apply norm_eq; simpl; lra.
Qed.

Lemma norm_pos (a : Vec) : a <> (0, 0) -> 0 < norm a.
Proof.
  intros H. destruct (norm_nonneg a) as [Hlt|Heq]; [exact Hlt|].
  symmetry in Heq. apply norm_zero_iff in Heq. contradiction.
Qed.

Lemma norm_vscale (k : R) (a : Vec) : norm (vscale k a) = Rabs k * norm a.
Proof.
  unfold norm, vscale; cbn [fst snd].
  replace ((k * a.1) ^ 2 + (k * a.2) ^ 2) with (k ^ 2 * (a.1 ^ 2 + a.2 ^ 2))
    by ring.
  rewrite sqrt_mult; [|nra|apply sum_sq_nonneg].
  f_equal. rewrite <- Rsqr_pow2. apply sqrt_Rsqr_abs.
Qed.

Lemma vsub_eq_zero (a b : Vec) : vsub a b = (0, 0) <-> a = b.
Proof.
  destruct a as [a1 a2], b as [b1 b2]. unfold vsub; simpl. split.
  - intros H. injection H as H1 H2. f_equal; lra.
  - intros H. injection H as -> ->. f_equal; lra.
Qed.

(** ** ExhaustVectorSolver *)

Lemma blend_le (c1 c2 : Vec) :
  norm c1 <= norm c2 ->
  vadd (vscale (float_of_bool (Rleb (norm c1) (norm c2))) c1)
       (vscale (float_of_bool (Rltb (norm c2) (norm c1))) c2) = c1.
Proof.
  intros H. destruct c1 as [x1 y1], c2 as [x2 y2].
  assert (Hle : Rleb (norm (x1, y1)) (norm (x2, y2)) = true)
    by (apply Rleb_true_iff; exact H).
  assert (Hlt : Rltb (norm (x2, y2)) (norm (x1, y1)) = false)
    by (apply Rltb_false_iff; exact H).
  rewrite Hle, Hlt. unfold vadd, vscale, float_of_bool; cbn [fst snd].
  f_equal; ring.
Qed.

Lemma blend_gt (c1 c2 : Vec) :
  norm c2 < norm c1 ->
  vadd (vscale (float_of_bool (Rleb (norm c1) (norm c2))) c1)
       (vscale (float_of_bool (Rltb (norm c2) (norm c1))) c2) = c2.
Proof.
  intros H. destruct c1 as [x1 y1], c2 as [x2 y2].
  assert (Hle : Rleb (norm (x1, y1)) (norm (x2, y2)) = false)
    by (apply Rleb_false_iff; exact H).
  assert (Hlt : Rltb (norm (x2, y2)) (norm (x1, y1)) = true)
    by (apply Rltb_true_iff; exact H).
  rewrite Hle, Hlt. unfold vadd, vscale, float_of_bool; cbn [fst snd].
  f_equal; ring.
Qed.

(** C7. For nonzero tangent vectors, [exhaust_vector vr t1 t2] is one of the
    two candidate corrections [c1 = (t1.vr/|t1|^2) t1 - vr] and
    [c2 = (t2.vr/|t2|^2) t2 - vr], and its norm is [min(|c1|, |c2|)]. *)
Theorem exhaust_vector_smaller_norm (vr t1 t2 : Vec) :
  t1 <> (0, 0) -> t2 <> (0, 0) ->
  let c1 := vsub (vscale (dot t1 vr / norm t1 ^ 2) t1) vr in
  let c2 := vsub (vscale (dot t2 vr / norm t2 ^ 2) t2) vr in
  (exhaust_vector vr t1 t2 = c1 \/ exhaust_vector vr t1 t2 = c2)
  /\ norm (exhaust_vector vr t1 t2) = Rmin (norm c1) (norm c2).
Proof.
  intros _ _ c1 c2. unfold exhaust_vector, exhaust_candidates.
  fold c1 c2. destruct (Rle_dec (norm c1) (norm c2)) as [Hle|Hgt].
  - rewrite (blend_le c1 c2 Hle). split; [left; reflexivity|].
    rewrite Rmin_left; [reflexivity | exact Hle].
  - assert (Hlt : norm c2 < norm c1) by lra.
    rewrite (blend_gt c1 c2 Hlt). split; [right; reflexivity|].
    rewrite Rmin_right; [reflexivity | lra].
Qed.

Lemma exhaust_vector_smaller_norm_witness :
  norm (exhaust_vector (3, 0) (4, 3) (4, -3))
  = Rmin (norm (vsub (vscale (dot (4, 3) (3, 0) / norm (4, 3) ^ 2) (4, 3)) (3, 0)))
         (norm (vsub (vscale (dot (4, -3) (3, 0) / norm (4, -3) ^ 2) (4, -3)) (3, 0))).
Proof.
  apply (exhaust_vector_smaller_norm (3, 0) (4, 3) (4, -3)).
  - intros H. injection H as H1 H2. lra.
  - intros H. injection H as H1 H2. lra.
Defined.

(** ** HeadingOptimizer, no-conflict branch *)

Section NoConflictHeading.

Variable minimize : Problem -> OptimizeResult.

(** C8. With an empty constraint set, [compute_heading] returns
    [(destination - position) / |destination - position|]; away from the
    destination this vector has norm 1, whatever the norm of the current
    heading. *)
Theorem compute_heading_no_conflict (self : Aircraft) :
  semi_plan self = [] ->
  compute_heading minimize self
  = vdiv (vsub (destination self) (position self))
         (norm (vsub (destination self) (position self)))
  /\ (destination self <> position self ->
      norm (compute_heading minimize self) = 1).
Proof.
  intros Hsp. unfold compute_heading. rewrite Hsp. split; [reflexivity|].
  intros Hne. set (v := vsub (destination self) (position self)).
  assert (Hpos : 0 < norm v).
  { apply norm_pos. unfold v. intros H. apply Hne, vsub_eq_zero, H. }
  replace (vdiv v (norm v)) with (vscale (/ norm v) v).
  - rewrite norm_vscale, Rabs_right.
    + field. lra.
    + left. apply Rinv_0_lt_compat. exact Hpos.
  - unfold vdiv, vscale, Rdiv. f_equal; ring.
Qed.

End NoConflictHeading.

Lemma compute_heading_no_conflict_witness :
  compute_heading solver_x0 (new_aircraft (0, 0) (10, 0) (30, 0))
  = vdiv (vsub (30, 0) (0, 0)) (norm (vsub (30, 0) (0, 0)))
  /\ ((30, 0) <> ((0, 0) : Vec) ->
      norm (compute_heading solver_x0 (new_aircraft (0, 0) (10, 0) (30, 0))) = 1).
Proof.
  apply (compute_heading_no_conflict solver_x0
           (new_aircraft (0, 0) (10, 0) (30, 0))).
  reflexivity.
Defined.

(** ** GeometryPredicates and ConflictDetector *)

Lemma is_inside_the_cone_iff (point pointA pointB v1 v2 : Vec) :
  is_inside_the_cone point pointA pointB v1 v2 = true
  <-> point_in_cone point pointA pointB v1 v2.
Proof.
  unfold is_inside_the_cone, point_in_cone, same_side.
  rewrite andb_true_iff, !Rleb_true_iff. reflexivity.
Qed.

Lemma is_inside_the_circle_iff (point center : Vec) (radius : R) :
  is_inside_the_circle point center radius = true
  <-> point_in_disk point center radius.
Proof.
  unfold is_inside_the_circle, point_in_disk. rewrite Rleb_true_iff.
  replace ((center.1 - point.1) ^ 2 + (center.2 - point.2) ^ 2)
    with ((point.1 - center.1) ^ 2 + (point.2 - center.2) ^ 2) by ring.
  reflexivity.
Qed.

Lemma mdot_rot (theta : R) (v : Vec) : mdot (rot theta) v = rotate theta v.
Proof. unfold mdot, rot, rotate, dot; cbn [fst snd]. f_equal; ring. Qed.

Lemma mdot_rot_inv (theta : R) (v : Vec) :
  mdot (rot_inv theta) v = rotate (- theta) v.
Proof.
  unfold mdot, rot_inv, rotate, dot; cbn [fst snd].
  rewrite cos_neg, sin_neg. f_equal; ring.
Qed.

(** C6. [detect_conflict] reports a conflict exactly when [self.position +
    vr] is in the cone of apex [self.position] whose edges are [dp] rotated
    by [+theta] and [-theta] and which contains [other.position], and [vr]
    is in the disk of center [dp/tau] and radius [d/tau] or is not in the
    disk centred at the origin whose radius is the x-component of [dp]
    divided by [tau]; the geometry returned with the flag is [vr] and the
    two rotated vectors. *)
Theorem detect_conflict_characterisation (self other : Aircraft) (d tau : R) :
  let dp := vsub (position other) (position self) in
  let vr := vsub (heading self) (heading other) in
  let theta := atan (d / norm dp) in
  ((detect_conflict self other d tau).1 = true
   <-> point_in_cone (vadd (position self) vr) (position self) (position other)
                     (rotate theta dp) (rotate (- theta) dp)
       /\ (point_in_disk vr (vdiv dp tau) (d / tau)
           \/ ~ point_in_disk vr (0, 0) (dp.1 / tau)))
  /\ (detect_conflict self other d tau).2
     = (vr, rotate theta dp, rotate (- theta) dp).
Proof.
  intros dp vr theta. unfold detect_conflict. fold dp vr theta.
  cbn [fst snd]. rewrite mdot_rot, mdot_rot_inv. split; [|reflexivity].
  rewrite andb_true_iff, orb_true_iff, negb_true_iff.
  rewrite is_inside_the_cone_iff, is_inside_the_circle_iff.
  rewrite <- not_true_iff_false, is_inside_the_circle_iff.
  reflexivity.
Qed.

(** Exchanging the two aircraft negates [dp] and [vr], keeps [theta], and
    negates the two tangent vectors. *)
Lemma detect_conflict_swap (A B : Aircraft) (d tau : R) :
  detect_conflict B A d tau
  = let r := detect_conflict A B d tau in
    (r.1, (vneg r.2.1.1, vneg r.2.1.2, vneg r.2.2)).
Proof.
  unfold detect_conflict. cbn [fst snd].
  replace (vsub (position A) (position B))
    with (vneg (vsub (position B) (position A)))
    by (unfold vneg, vsub; cbn [fst snd]; f_equal; ring).
  rewrite norm_vneg.
  set (dp := vsub (position B) (position A)).
  set (theta := atan (d / norm dp)).
  f_equal.
  - unfold is_inside_the_cone, is_inside_the_circle, mdot, rot, rot_inv, dot,
      det, vadd, vsub, vneg, vdiv; cbn [fst snd].
    f_equal; [f_equal|f_equal; [|f_equal]]; f_equal; unfold Rdiv; ring.
  - unfold mdot, rot, rot_inv, dot, vsub, vneg; cbn [fst snd].
    f_equal; [f_equal|]; f_equal; ring.
Qed.

(** C10. For two aircraft at distinct positions and positive [d], [tau], the
    conflict flag does not depend on which of the two is [self]. *)
Theorem detect_conflict_symmetric (A B : Aircraft) (d tau : R) :
  position A <> position B -> 0 < d -> 0 < tau ->
  (detect_conflict A B d tau).1 = (detect_conflict B A d tau).1.
Proof.
  intros _ _ _. rewrite (detect_conflict_swap A B). reflexivity.
Qed.

(** ** A concrete encounter

    Two aircraft on the x axis, 4 apart, closing at relative speed 3, with
    separation distance 3 and lookahead 1: the half-angle of the cone is
    [atan (3/4)], whose cosine and sine are 4/5 and 3/5. *)

Lemma sqrt_1_plus_sqr_34 : sqrt (1 + (3 / 4)²) = 5 / 4.
Proof.
  replace (1 + (3 / 4)²) with ((5 / 4) ^ 2) by (unfold Rsqr; field).
  apply sqrt_pow2. lra.
Qed.

Lemma cos_atan_34 : cos (atan (3 / 4)) = 4 / 5.
Proof. rewrite cos_atan, sqrt_1_plus_sqr_34. field. Qed.

Lemma sin_atan_34 : sin (atan (3 / 4)) = 3 / 5.
Proof. rewrite sin_atan, sqrt_1_plus_sqr_34. field. Qed.

Lemma vec_eq (x y x' y' : R) : x = x' -> y = y' -> (x, y) = (x', y').
Proof. intros -> ->. reflexivity. Qed.

Lemma encounter_detect :
  detect_conflict ac_west ac_east 3 1
  = (true, ((3, 0), (16 / 5, 12 / 5), (16 / 5, - 12 / 5))).
Proof.
  unfold detect_conflict, ac_west, ac_east, new_aircraft; cbn [position heading].
  assert (Hro : norm (vsub (4, 0) (0, 0)) = 4).
  { apply norm_eq; [lra|]. unfold vsub; cbn [fst snd]. ring. }
  rewrite Hro.
  unfold mdot, rot, rot_inv, dot, vsub, vadd, vdiv; cbn [fst snd].
  rewrite cos_atan_34, sin_atan_34.
  assert (Hcone : is_inside_the_cone (0 + (2 - -1), 0 + (0 - 0)) (0, 0) (4, 0)
            (4 / 5 * (4 - 0) + - (3 / 5) * (0 - 0),
             3 / 5 * (4 - 0) + 4 / 5 * (0 - 0))
            (4 / 5 * (4 - 0) + 3 / 5 * (0 - 0),
             - (3 / 5) * (4 - 0) + 4 / 5 * (0 - 0)) = true).
  { apply is_inside_the_cone_iff. unfold point_in_cone, same_side, det, vsub.
    cbn [fst snd]. split; lra. }
  assert (Hdisk : is_inside_the_circle (2 - -1, 0 - 0)
                    ((4 - 0) / 1, (0 - 0) / 1) (3 / 1) = true).
  { apply is_inside_the_circle_iff. unfold point_in_disk. cbn [fst snd]. lra. }
  rewrite Hcone, Hdisk. cbn [andb orb].
  f_equal. f_equal; [f_equal|]; apply vec_eq; lra.
Qed.

Lemma encounter_exhaust :
  exhaust_vector (3, 0) (16 / 5, 12 / 5) (16 / 5, - 12 / 5)
  = (- 27 / 25, 36 / 25).
Proof.
  unfold exhaust_vector, exhaust_candidates.
  assert (H1 : norm (16 / 5, 12 / 5) = 4)
    by (apply norm_eq; cbn [fst snd]; lra).
  assert (H2 : norm (16 / 5, - 12 / 5) = 4)
    by (apply norm_eq; cbn [fst snd]; lra).
  rewrite H1, H2.
  assert (Hc1 : vsub (vscale (dot (16 / 5, 12 / 5) (3, 0) / 4 ^ 2)
                             (16 / 5, 12 / 5)) (3, 0) = (- 27 / 25, 36 / 25)).
  { unfold vsub, vscale, dot; cbn [fst snd]. apply vec_eq; lra. }
  assert (Hc2 : vsub (vscale (dot (16 / 5, - 12 / 5) (3, 0) / 4 ^ 2)
                             (16 / 5, - 12 / 5)) (3, 0) = (- 27 / 25, - 36 / 25)).
  { unfold vsub, vscale, dot; cbn [fst snd]. apply vec_eq; lra. }
  rewrite Hc1, Hc2. apply blend_le.
  assert (N1 : norm (- 27 / 25, 36 / 25) = 9 / 5)
    by (apply norm_eq; cbn [fst snd]; lra).
  assert (N2 : norm (- 27 / 25, - 36 / 25) = 9 / 5)
    by (apply norm_eq; cbn [fst snd]; lra).
  rewrite N1, N2. lra.
Qed.

Lemma detect_conflict_symmetric_witness :
  (detect_conflict ac_west ac_east 3 1).1 = (detect_conflict ac_east ac_west 3 1).1.
Proof.
  apply (detect_conflict_symmetric ac_west ac_east 3 1).
  - intros H. injection H as H1. lra.
  - lra.
  - lra.
Defined.

(** ** ConstraintAccumulator *)

Lemma extend_semi_plan_nil (a : Aircraft) : extend_semi_plan [] a = a.
Proof.
  destruct a. unfold extend_semi_plan, set_semi_plan; cbn.
  rewrite app_nil_r. reflexivity.
Qed.

(** The two lists yielded by [compute_semi_plan], from the result of
    [detect_conflict]. *)
Lemma compute_semi_plan_eq (self other : Aircraft) (d tau : R) :
  compute_semi_plan self other d tau
  = let r := detect_conflict self other d tau in
    let c := exhaust_vector r.2.1.1 r.2.1.2 r.2.2 in
    if r.1 then
      ([half_plane c (dot c (vneg (vadd (heading self) (vdiv c 2))))],
       [half_plane (vneg c) (dot c (vsub (heading other) (vdiv c 2)))])
    else ([], []).
Proof.
  unfold compute_semi_plan.
  destruct (detect_conflict self other d tau) as [conflict [[vr t1] t2]].
  reflexivity.
Qed.

(** The aircraft list after the scan of one pair. *)
Lemma scan_pair_aircraft (s : Simulation) (i j : nat) (ai aj : Aircraft) :
  aircraft s !! i = Some ai -> aircraft s !! j = Some aj ->
  aircraft (scan_pair i j s)
  = alter (extend_semi_plan (compute_semi_plan ai aj (d s) (tau s)).2) j
      (alter (extend_semi_plan (compute_semi_plan ai aj (d s) (tau s)).1) i
         (aircraft s)).
Proof.
  intros Hi Hj. unfold scan_pair. rewrite Hi, Hj.
  destruct (compute_semi_plan ai aj (d s) (tau s)) as [p_ij p_ji].
  reflexivity.
Qed.

Lemma scan_pair_lookup_self (s : Simulation) (i j : nat) (ai aj : Aircraft) :
  i <> j -> aircraft s !! i = Some ai -> aircraft s !! j = Some aj ->
  aircraft (scan_pair i j s) !! i
  = Some (extend_semi_plan (compute_semi_plan ai aj (d s) (tau s)).1 ai).
Proof.
  intros Hij Hi Hj. rewrite (scan_pair_aircraft s i j ai aj Hi Hj).
  rewrite list_lookup_alter_ne by auto.
  rewrite list_lookup_alter_eq, Hi. reflexivity.
Qed.

Lemma scan_pair_lookup_other (s : Simulation) (i j : nat) (ai aj : Aircraft) :
  i <> j -> aircraft s !! i = Some ai -> aircraft s !! j = Some aj ->
  aircraft (scan_pair i j s) !! j
  = Some (extend_semi_plan (compute_semi_plan ai aj (d s) (tau s)).2 aj).
Proof.
  intros Hij Hi Hj. rewrite (scan_pair_aircraft s i j ai aj Hi Hj).
  rewrite list_lookup_alter_eq, list_lookup_alter_ne by auto.
  rewrite Hj. reflexivity.
Qed.

Lemma scan_pair_lookup_ne (s : Simulation) (i j k : nat) :
  k <> i -> k <> j -> aircraft (scan_pair i j s) !! k = aircraft s !! k.
Proof.
  intros Hki Hkj. unfold scan_pair.
  destruct (aircraft s !! i) as [ai|]; [|reflexivity].
  destruct (aircraft s !! j) as [aj|]; [|reflexivity].
  destruct (compute_semi_plan ai aj (d s) (tau s)) as [p_ij p_ji].
  cbn [aircraft set_aircraft set_alerts].
  rewrite !list_lookup_alter_ne by auto. reflexivity.
Qed.

(** C1 (as the program has it). For a pair [(i, j)] of distinct aircraft
    in conflict, with exhaust vector [c], the scan of the pair appends to
    [self]'s constraint set the half-plane [(c, c.(-(self.heading + c/2)))]
    and to [other]'s the half-plane [(-c, c.(other.heading - c/2))], and
    leaves every other aircraft as it is; for a pair with no conflict the
    aircraft are unchanged. *)
Theorem scan_pair_constraints (s : Simulation) (i j : nat) (ai aj : Aircraft) :
  i <> j -> aircraft s !! i = Some ai -> aircraft s !! j = Some aj ->
  let r := detect_conflict ai aj (d s) (tau s) in
  let c := exhaust_vector r.2.1.1 r.2.1.2 r.2.2 in
  let s' := scan_pair i j s in
  if r.1 then
    aircraft s' !! i
    = Some (set_semi_plan
              (semi_plan ai
               ++ [half_plane c (dot c (vneg (vadd (heading ai) (vdiv c 2))))])
              ai)
    /\ aircraft s' !! j
       = Some (set_semi_plan
                 (semi_plan aj
                  ++ [half_plane (vneg c)
                                 (dot c (vsub (heading aj) (vdiv c 2)))])
                 aj)
    /\ (forall k, k <> i -> k <> j -> aircraft s' !! k = aircraft s !! k)
  else aircraft s' = aircraft s.
Proof.
  intros Hij Hi Hj r c s'. unfold s'.
  pose proof (scan_pair_lookup_self s i j ai aj Hij Hi Hj) as Hs.
  pose proof (scan_pair_lookup_other s i j ai aj Hij Hi Hj) as Ho.
  pose proof (scan_pair_aircraft s i j ai aj Hi Hj) as Ha.
  rewrite compute_semi_plan_eq in Hs, Ho, Ha. fold r in Hs, Ho, Ha.
  cbv zeta in Hs, Ho, Ha. fold c in Hs, Ho, Ha.
  destruct (r.1) eqn:Hconf; cbn [fst snd] in Hs, Ho, Ha.
  - split; [exact Hs|split; [exact Ho|]].
    intros k Hki Hkj. apply scan_pair_lookup_ne; assumption.
  - rewrite Ha, !list_alter_id by apply extend_semi_plan_nil. reflexivity.
Qed.

Lemma scan_pair_constraints_witness :
  let r := detect_conflict ac_west ac_east (d encounter) (tau encounter) in
  let c := exhaust_vector r.2.1.1 r.2.1.2 r.2.2 in
  let s' := scan_pair 0 1 encounter in
  if r.1 then
    aircraft s' !! 0%nat
    = Some (set_semi_plan
              (semi_plan ac_west
               ++ [half_plane c (dot c (vneg (vadd (heading ac_west) (vdiv c 2))))])
              ac_west)
    /\ aircraft s' !! 1%nat
       = Some (set_semi_plan
                 (semi_plan ac_east
                  ++ [half_plane (vneg c)
                                 (dot c (vsub (heading ac_east) (vdiv c 2)))])
                 ac_east)
    /\ (forall k, k <> 0%nat -> k <> 1%nat ->
                  aircraft s' !! k = aircraft encounter !! k)
  else aircraft s' = aircraft encounter.
Proof.
  apply (scan_pair_constraints encounter 0 1 ac_west ac_east).
  - lia.
  - reflexivity.
  - reflexivity.
Defined.

(** C1 as stated fails: in the encounter the pair is in conflict, and the
    threshold appended to [other] is [c.(other.heading - c/2) = -27/50],
    not [(-c).(other.heading - c/2) = 27/50]. *)
Lemma scan_pair_other_threshold_counterexample :
  let r := detect_conflict ac_west ac_east (d encounter) (tau encounter) in
  let c := exhaust_vector r.2.1.1 r.2.1.2 r.2.2 in
  r.1 = true
  /\ aircraft (scan_pair 0 1 encounter) !! 1%nat
     <> Some (set_semi_plan
                (semi_plan ac_east
                 ++ [half_plane (vneg c)
                       (dot (vneg c) (vsub (heading ac_east) (vdiv c 2)))])
                ac_east).
Proof.
  cbv zeta. cbn [d tau encounter].
  rewrite encounter_detect. cbn [fst snd]. rewrite encounter_exhaust.
  split; [reflexivity|].
  rewrite (scan_pair_lookup_other encounter 0 1 ac_west ac_east)
    by (reflexivity || lia).
  rewrite compute_semi_plan_eq. cbn [d tau encounter].
  rewrite encounter_detect. cbv zeta. cbn [fst snd]. rewrite encounter_exhaust.
  intros H. injection H as H.
  unfold dot, vneg, vsub, vdiv, ac_east, new_aircraft in H;
    cbn [fst snd heading] in H.
  lra.
Qed.

(** ** SimulationStepper: the pairwise scan on a frozen state *)

Lemma detect_conflict_kinematics (a a' b b' : Aircraft) (D T : R) :
  kinematics a = kinematics a' -> kinematics b = kinematics b' ->
  detect_conflict a b D T = detect_conflict a' b' D T.
Proof.
  unfold kinematics. intros Ha Hb. injection Ha as Hpa Hha.
  injection Hb as Hpb Hhb. unfold detect_conflict.
  rewrite Hpa, Hha, Hpb, Hhb. reflexivity.
Qed.

Lemma compute_semi_plan_kinematics (a a' b b' : Aircraft) (D T : R) :
  kinematics a = kinematics a' -> kinematics b = kinematics b' ->
  compute_semi_plan a b D T = compute_semi_plan a' b' D T.
Proof.
  intros Ha Hb. rewrite !compute_semi_plan_eq.
  rewrite (detect_conflict_kinematics a a' b b' D T Ha Hb).
  unfold kinematics in Ha, Hb. injection Ha as _ Hha. injection Hb as _ Hhb.
  rewrite Hha, Hhb. reflexivity.
Qed.

Lemma kinematics_lookup (l l' : list Aircraft) (i : nat) :
  kinematics <$> l = kinematics <$> l' ->
  kinematics <$> (l !! i) = kinematics <$> (l' !! i).
Proof. intros H. rewrite <- !list_lookup_fmap, H. reflexivity. Qed.

Lemma plans_kinematics (l l' : list Aircraft) (D T : R) (i j : nat) :
  kinematics <$> l = kinematics <$> l' -> plans l D T i j = plans l' D T i j.
Proof.
  intros H. unfold plans.
  pose proof (kinematics_lookup l l' i H) as Hi.
  pose proof (kinematics_lookup l l' j H) as Hj.
  destruct (l !! i) as [a|], (l' !! i) as [a'|]; try discriminate;
    try reflexivity.
  destruct (l !! j) as [b|], (l' !! j) as [b'|]; try discriminate;
    try reflexivity.
  cbn in Hi, Hj. apply compute_semi_plan_kinematics; congruence.
Qed.

Lemma conflict_at_kinematics (l l' : list Aircraft) (D T : R) (p : nat * nat) :
  kinematics <$> l = kinematics <$> l' -> conflict_at l D T p = conflict_at l' D T p.
Proof.
  intros H. unfold conflict_at.
  pose proof (kinematics_lookup l l' p.1 H) as Hi.
  pose proof (kinematics_lookup l l' p.2 H) as Hj.
  destruct (l !! p.1) as [a|], (l' !! p.1) as [a'|]; try discriminate;
    try reflexivity.
  destruct (l !! p.2) as [b|], (l' !! p.2) as [b'|]; try discriminate;
    try reflexivity.
  cbn in Hi, Hj.
  rewrite (detect_conflict_kinematics a a' b b' D T); congruence.
Qed.

Lemma piece_kinematics (l l' : list Aircraft) (D T : R) (k : nat) (p : nat * nat) :
  kinematics <$> l = kinematics <$> l' -> piece l D T k p = piece l' D T k p.
Proof.
  intros H. unfold piece. rewrite (plans_kinematics l l' D T _ _ H). reflexivity.
Qed.

Lemma extend_semi_plan_app (p q : list SemiPlan) (a : Aircraft) :
  extend_semi_plan q (extend_semi_plan p a) = extend_semi_plan (p ++ q) a.
Proof.
  destruct a. unfold extend_semi_plan, set_semi_plan; cbn.
  rewrite app_assoc. reflexivity.
Qed.

Lemma kinematics_extend (p : list SemiPlan) (a : Aircraft) :
  kinematics (extend_semi_plan p a) = kinematics a.
Proof. reflexivity. Qed.

Lemma simulation_eq (s s' : Simulation) :
  aircraft s = aircraft s' -> alerts s = alerts s' ->
  separation_losses s = separation_losses s' ->
  d s = d s' -> tau s = tau s' -> time_step s = time_step s' ->
  area_size s = area_size s' -> time s = time s' -> step s = step s' ->
  s = s'.
Proof. destruct s, s'; cbn; intros; subst; reflexivity. Qed.

Lemma count_pairs_one (f : nat * nat -> bool) (p : nat * nat) :
  count_pairs f [p] = int_of_bool (f p).
Proof. unfold count_pairs; cbn. destruct (f p); reflexivity. Qed.

Lemma count_pairs_app (f : nat * nat -> bool) (ps qs : list (nat * nat)) :
  count_pairs f (ps ++ qs) = (count_pairs f ps + count_pairs f qs)%Z.
Proof.
  unfold count_pairs. rewrite List.filter_app, length_app. lia.
Qed.

Lemma count_pairs_ext (f g : nat * nat -> bool) (ps : list (nat * nat)) :
  (forall p, f p = g p) -> count_pairs f ps = count_pairs g ps.
Proof.
  intros H. unfold count_pairs. rewrite (List.filter_ext f g H). reflexivity.
Qed.

Lemma scan_pair_scanned (s : Simulation) (p : nat * nat) :
  valid_pair (length (aircraft s)) p -> scan_pair p.1 p.2 s = scanned [p] s.
Proof.
  intros (Hne & Hi & Hj). destruct p as [i j]. cbn [fst snd] in *.
  destruct (lookup_lt_is_Some_2 _ _ Hi) as [ai Hai].
  destruct (lookup_lt_is_Some_2 _ _ Hj) as [aj Haj].
  apply simulation_eq;
    try (unfold scan_pair; rewrite Hai, Haj;
         destruct (compute_semi_plan ai aj (d s) (tau s)); reflexivity).
  - rewrite (scan_pair_aircraft s i j ai aj Hai Haj).
    unfold scanned, accumulated; cbn [aircraft set_alerts set_aircraft].
    apply list_eq. intros k. rewrite list_lookup_imap.
    unfold piece, plans; cbn [fst snd flat_map]. rewrite Hai, Haj.
    rewrite !app_nil_r.
    destruct (decide (k = j)) as [->|Hkj].
    + rewrite list_lookup_alter_eq, list_lookup_alter_ne by auto.
      rewrite Haj. cbn [fmap option_fmap option_map]. rewrite Nat.eqb_refl.
      destruct (Nat.eqb_spec j i); [congruence|reflexivity].
    + rewrite list_lookup_alter_ne by auto.
      destruct (decide (k = i)) as [->|Hki].
      * rewrite list_lookup_alter_eq, Hai. cbn [fmap option_fmap option_map].
        rewrite Nat.eqb_refl. reflexivity.
      * rewrite list_lookup_alter_ne by auto.
        destruct (Nat.eqb_spec k i); [congruence|].
        destruct (Nat.eqb_spec k j); [congruence|].
        destruct (aircraft s !! k); cbn [fmap option_fmap option_map];
          [|reflexivity].
        rewrite extend_semi_plan_nil. reflexivity.
  - unfold scanned, accumulated; cbn [alerts set_alerts set_aircraft].
    rewrite count_pairs_one. unfold conflict_at; cbn [fst snd].
    rewrite Hai, Haj. unfold scan_pair. rewrite Hai, Haj.
    destruct (compute_semi_plan ai aj (d s) (tau s)). reflexivity.
Qed.

Lemma kinematics_imap_extend (E : nat -> list SemiPlan) (l : list Aircraft) :
  kinematics <$> imap (fun k a => extend_semi_plan (E k) a) l = kinematics <$> l.
Proof.
  apply list_eq. intros k. rewrite !list_lookup_fmap, list_lookup_imap.
  destruct (l !! k); reflexivity.
Qed.

Lemma scanned_app (ps qs : list (nat * nat)) (s : Simulation) :
  scanned qs (scanned ps s) = scanned (ps ++ qs) s.
Proof.
  assert (Hk : kinematics <$> aircraft (scanned ps s) = kinematics <$> aircraft s)
    by apply kinematics_imap_extend.
  apply simulation_eq; try reflexivity.
  - unfold scanned at 1 3; unfold accumulated. cbn [aircraft set_alerts set_aircraft].
    apply list_eq. intros k.
    replace (d (scanned ps s)) with (d s) by reflexivity.
    replace (tau (scanned ps s)) with (tau s) by reflexivity.
    rewrite !list_lookup_imap.
    unfold scanned at 2; unfold accumulated. cbn [aircraft set_alerts set_aircraft].
    rewrite list_lookup_imap.
    destruct (aircraft s !! k) as [a|]; cbn [fmap option_fmap option_map];
      [|reflexivity].
    rewrite extend_semi_plan_app, flat_map_app. do 3 f_equal.
    apply flat_map_ext. intros p. apply piece_kinematics. exact Hk.
  - unfold scanned at 1 3; unfold accumulated. cbn [alerts set_alerts set_aircraft].
    replace (d (scanned ps s)) with (d s) by reflexivity.
    replace (tau (scanned ps s)) with (tau s) by reflexivity.
    rewrite count_pairs_app.
    rewrite (count_pairs_ext _ (conflict_at (aircraft s) (d s) (tau s)) qs)
      by (intros p; apply conflict_at_kinematics; exact Hk).
    unfold scanned, accumulated; cbn [alerts set_alerts set_aircraft]. lia.
Qed.

Lemma length_scanned (ps : list (nat * nat)) (s : Simulation) :
  length (aircraft (scanned ps s)) = length (aircraft s).
Proof. unfold scanned, accumulated; cbn [aircraft set_alerts set_aircraft]. apply length_imap. Qed.

(** The nested scan reads a frozen state: scanning a list of pairs in
    order gives every aircraft the pieces computed on the state before the
    scan. *)
Lemma scan_list_scanned (ps : list (nat * nat)) (s : Simulation) :
  Forall (valid_pair (length (aircraft s))) ps -> scan_list ps s = scanned ps s.
Proof.
  revert s. induction ps as [|p ps IH]; intros s Hv.
  - cbn. apply simulation_eq; try reflexivity.
    + unfold scanned, accumulated; cbn [aircraft set_alerts set_aircraft flat_map].
      apply list_eq. intros k. rewrite list_lookup_imap.
      destruct (aircraft s !! k); cbn [fmap option_fmap option_map];
        [|reflexivity].
      rewrite extend_semi_plan_nil. reflexivity.
    + unfold scanned, accumulated, count_pairs; cbn. lia.
  - inversion Hv as [|? ? Hp Hps]; subst.
    change (scan_list (p :: ps) s) with (scan_list ps (scan_pair p.1 p.2 s)).
    rewrite (scan_pair_scanned s p Hp).
    rewrite IH by (rewrite length_scanned; exact Hps).
    apply (scanned_app [p] ps s).
Qed.

Lemma scan_from_scan_list (i N : nat) (s : Simulation) :
  scan_from i N s = scan_list (row i N) s.
Proof. unfold scan_list, row. rewrite foldl_fmap. reflexivity. Qed.

Lemma elem_of_row (i N : nat) (p : nat * nat) :
  p ∈ row i N <-> p.1 = i /\ (i < p.2)%nat /\ (p.2 < N)%nat.
Proof.
  unfold row. rewrite list_elem_of_fmap. split.
  - intros (j & -> & Hj). apply elem_of_seq in Hj. cbn. lia.
  - intros (H1 & H2 & H3). exists p.2. split.
    + destruct p; cbn in *; subst; reflexivity.
    + apply elem_of_seq. lia.
Qed.

Lemma row_valid (i N : nat) : Forall (valid_pair N) (row i N).
Proof.
  apply Forall_forall. intros p Hp. apply elem_of_row in Hp.
  unfold valid_pair. lia.
Qed.

Lemma flat_map_ext_elem {A B : Type} (f g : A -> list B) (l : list A) :
  (forall x, x ∈ l -> f x = g x) -> flat_map f l = flat_map g l.
Proof.
  induction l as [|x l IH]; intros H; [reflexivity|]. cbn.
  rewrite (H x) by apply list_elem_of_here.
  rewrite IH; [reflexivity|]. intros y Hy. apply H. apply list_elem_of_further, Hy.
Qed.

Lemma flat_map_nil_elem {A B : Type} (f : A -> list B) (l : list A) :
  (forall x, x ∈ l -> f x = []) -> flat_map f l = [].
Proof.
  intros H. rewrite (flat_map_ext_elem f (fun _ => []) l H). clear H.
  induction l as [|x l IH]; [reflexivity|exact IH].
Qed.

Lemma count_pairs_ext_elem (f g : nat * nat -> bool) (ps : list (nat * nat)) :
  (forall p, p ∈ ps -> f p = g p) -> count_pairs f ps = count_pairs g ps.
Proof.
  intros H. unfold count_pairs. rewrite (List.filter_ext_in f g ps); [reflexivity|].
  intros p Hp. apply H. apply list_elem_of_In, Hp.
Qed.

(** A pair gives nothing to an aircraft that is not one of its members. *)
Lemma piece_outside (l : list Aircraft) (D T : R) (k : nat) (p : nat * nat) :
  k <> p.1 -> k <> p.2 -> piece l D T k p = [].
Proof.
  intros H1 H2. unfold piece.
  destruct (Nat.eqb_spec k p.1); [congruence|].
  destruct (Nat.eqb_spec k p.2); [congruence|reflexivity].
Qed.

Lemma pieces_row_outside (l : list Aircraft) (D T : R) (k i N : nat) :
  (k < i)%nat -> flat_map (piece l D T k) (row i N) = [].
Proof.
  intros Hk. apply flat_map_nil_elem. intros p Hp. apply elem_of_row in Hp.
  apply piece_outside; lia.
Qed.

(** The plans of a pair only depend on the kinematics of its members. *)
Lemma plans_kinematics_at (l l' : list Aircraft) (D T : R) (i j : nat) :
  kinematics <$> (l !! i) = kinematics <$> (l' !! i) ->
  kinematics <$> (l !! j) = kinematics <$> (l' !! j) ->
  plans l D T i j = plans l' D T i j.
Proof.
  intros Hi Hj. unfold plans.
  destruct (l !! i) as [a|], (l' !! i) as [a'|]; try discriminate;
    try reflexivity.
  destruct (l !! j) as [b|], (l' !! j) as [b'|]; try discriminate;
    try reflexivity.
  cbn in Hi, Hj. apply compute_semi_plan_kinematics; congruence.
Qed.

Lemma conflict_at_kinematics_at (l l' : list Aircraft) (D T : R) (p : nat * nat) :
  kinematics <$> (l !! p.1) = kinematics <$> (l' !! p.1) ->
  kinematics <$> (l !! p.2) = kinematics <$> (l' !! p.2) ->
  conflict_at l D T p = conflict_at l' D T p.
Proof.
  intros Hi Hj. unfold conflict_at.
  destruct (l !! p.1) as [a|], (l' !! p.1) as [a'|]; try discriminate;
    try reflexivity.
  destruct (l !! p.2) as [b|], (l' !! p.2) as [b'|]; try discriminate;
    try reflexivity.
  cbn in Hi, Hj.
  rewrite (detect_conflict_kinematics a a' b b' D T); congruence.
Qed.

Lemma pairs_upto_S (N i : nat) : pairs_upto N (S i) = pairs_upto N i ++ row i N.
Proof.
  unfold pairs_upto. rewrite seq_S, flat_map_app. cbn. rewrite app_nil_r.
  reflexivity.
Qed.

Lemma pairs_upto_all (N : nat) : pairs_upto N N = all_pairs N.
Proof. reflexivity. Qed.

(** Once the outer loop has passed [k], no later row involves [k]. *)
Lemma pieces_upto_stable (l : list Aircraft) (D T : R) (N k i : nat) :
  (k < i)%nat ->
  flat_map (piece l D T k) (pairs_upto N i)
  = flat_map (piece l D T k) (pairs_upto N (S k)).
Proof.
  induction i as [|i IH]; intros Hk; [lia|].
  destruct (decide (i = k)) as [->|Hne]; [reflexivity|].
  rewrite pairs_upto_S, flat_map_app, pieces_row_outside by lia.
  rewrite app_nil_r. apply IH. lia.
Qed.

(** ** SimulationStepper: the loop of [run_one_step] against a two-phase
    protocol *)

Section TwoPhase.

Variable minimize : Problem -> OptimizeResult.

Lemma kinematics_partial_state (frozen : list Aircraft) (D T : R)
      (N i m : nat) :
  (i <= m)%nat ->
  kinematics <$> (imap (partial_state minimize frozen D T N i) frozen !! m)
  = kinematics <$> (frozen !! m).
Proof.
  intros Hm. rewrite list_lookup_imap. unfold partial_state.
  destruct (Nat.ltb_spec m i); [lia|].
  destruct (frozen !! m); reflexivity.
Qed.

Lemma reached_destination_resolve (a : Aircraft) (p : list SemiPlan) (eps : R) :
  reached_destination (resolve_aircraft minimize (extend_semi_plan p a)) eps
  = reached_destination a eps.
Proof. reflexivity. Qed.

(** The state of the outer loop after its first [i] iterations. *)
Lemma outer_loop_invariant (s : Simulation) (i : nat) :
  let frozen := aircraft s in
  let N := length frozen in
  (i <= N)%nat ->
  foldl (step_agent minimize N) (s, true) (seq 0 i)
  = (set_alerts
       (alerts s
        + count_pairs (conflict_at frozen (d s) (tau s)) (pairs_upto N i))
       (set_aircraft (imap (partial_state minimize frozen (d s) (tau s) N i) frozen) s),
     forallb (fun a => reached_destination a 3) (take i frozen)).
Proof.
  intros frozen N. induction i as [|i IH]; intros Hi.
  - cbn [seq foldl take forallb]. f_equal. apply simulation_eq; try reflexivity.
    + cbn [aircraft set_alerts set_aircraft]. apply list_eq. intros k.
      rewrite list_lookup_imap. unfold partial_state, accumulated, pairs_upto.
      cbn [seq flat_map Nat.ltb Nat.leb].
      destruct (frozen !! k) eqn:E; fold frozen; rewrite E;
        cbn [fmap option_fmap option_map]; [|reflexivity].
      rewrite extend_semi_plan_nil. reflexivity.
    + cbn [alerts set_alerts set_aircraft]. unfold count_pairs, pairs_upto.
      cbn. lia.
  - rewrite seq_S, foldl_app, IH by lia. cbn [foldl Nat.add].
    set (li := imap (partial_state minimize frozen (d s) (tau s) N i) frozen).
    set (sti := set_alerts _ (set_aircraft li s)).
    assert (Hlen : length (aircraft sti) = N)
      by (unfold sti, li; cbn [aircraft set_alerts set_aircraft];
          apply length_imap).
    destruct (lookup_lt_is_Some_2 frozen i ltac:(fold N; lia)) as [a0 Ha0].
    unfold step_agent. cbn [fst snd].
    rewrite scan_from_scan_list, scan_list_scanned
      by (rewrite Hlen; apply row_valid).
    assert (Hkin : forall m, (i <= m)%nat ->
              kinematics <$> (li !! m) = kinematics <$> (frozen !! m))
      by (intros m Hm; apply kinematics_partial_state; exact Hm).
    assert (Hpiece : forall k p, p ∈ row i N ->
              piece li (d s) (tau s) k p = piece frozen (d s) (tau s) k p).
    { intros k p Hp. apply elem_of_row in Hp. unfold piece.
      rewrite (plans_kinematics_at li frozen) by (apply Hkin; lia).
      reflexivity. }
    assert (Hlook : forall k,
      aircraft (scanned (row i N) sti) !! k
      = (fun a => extend_semi_plan
                    (accumulated frozen (d s) (tau s) (row i N) k)
                    (partial_state minimize frozen (d s) (tau s) N i k a))
          <$> frozen !! k).
    { intros k. unfold scanned, accumulated, sti.
      cbn [aircraft set_alerts set_aircraft d tau].
      rewrite list_lookup_imap. unfold li at 2. rewrite list_lookup_imap.
      destruct (frozen !! k); cbn [fmap option_fmap option_map]; [|reflexivity].
      unfold accumulated.
      rewrite (flat_map_ext_elem _ (piece frozen (d s) (tau s) k))
        by (intros p Hp; apply Hpiece, Hp).
      reflexivity. }
    f_equal.
    + apply simulation_eq; try reflexivity.
      * cbn [aircraft set_alerts set_aircraft].
        apply list_eq. intros k. rewrite list_lookup_imap.
        destruct (decide (k = i)) as [->|Hki].
        -- rewrite list_lookup_alter_eq, Hlook, Ha0.
           cbn [fmap option_fmap option_map]. f_equal.
           unfold partial_state.
           destruct (Nat.ltb_spec i i); [lia|].
           destruct (Nat.ltb_spec i (S i)); [|lia].
           rewrite extend_semi_plan_app. unfold accumulated.
           rewrite pairs_upto_S, flat_map_app. reflexivity.
        -- rewrite list_lookup_alter_ne, Hlook by auto.
           destruct (frozen !! k); cbn [fmap option_fmap option_map];
             [|reflexivity].
           f_equal. unfold partial_state.
           destruct (Nat.ltb_spec k i).
           ++ destruct (Nat.ltb_spec k (S i)); [|lia].
              unfold accumulated at 1. rewrite pieces_row_outside by lia.
              apply extend_semi_plan_nil.
           ++ destruct (Nat.ltb_spec k (S i)); [lia|].
              rewrite extend_semi_plan_app. unfold accumulated.
              rewrite pairs_upto_S, flat_map_app. reflexivity.
      * unfold scanned, accumulated, sti. cbn [alerts aircraft set_alerts set_aircraft d tau].
        rewrite pairs_upto_S, count_pairs_app.
        rewrite (count_pairs_ext_elem (conflict_at li (d s) (tau s))
                   (conflict_at frozen (d s) (tau s))); [lia|].
        intros p Hp. apply elem_of_row in Hp.
        apply conflict_at_kinematics_at; apply Hkin; lia.
    + cbn [aircraft set_alerts set_aircraft].
      rewrite list_lookup_alter_eq, Hlook, Ha0.
      cbn [fmap option_fmap option_map].
      rewrite (take_S_r frozen i a0 Ha0), forallb_app. cbn [forallb].
      rewrite andb_true_r. f_equal. unfold partial_state.
      destruct (Nat.ltb_spec i i); [lia|]. reflexivity.
Qed.

End TwoPhase.

(** ** Independence of the orientation and of the order of the pairs *)

Lemma vneg_vneg (a : Vec) : vneg (vneg a) = a.
Proof. destruct a. unfold vneg; cbn [fst snd]. f_equal; ring. Qed.

Lemma exhaust_vector_vneg (vr t1 t2 : Vec) :
  exhaust_vector (vneg vr) (vneg t1) (vneg t2) = vneg (exhaust_vector vr t1 t2).
Proof.
  unfold exhaust_vector, exhaust_candidates. rewrite !norm_vneg.
  set (c1 := vsub (vscale (dot t1 vr / norm t1 ^ 2) t1) vr).
  set (c2 := vsub (vscale (dot t2 vr / norm t2 ^ 2) t2) vr).
  replace (vsub (vscale (dot (vneg t1) (vneg vr) / norm t1 ^ 2) (vneg t1)) (vneg vr))
    with (vneg c1)
    by (unfold c1, vsub, vscale, vneg, dot; cbn [fst snd];
        f_equal; unfold Rdiv; ring).
  replace (vsub (vscale (dot (vneg t2) (vneg vr) / norm t2 ^ 2) (vneg t2)) (vneg vr))
    with (vneg c2)
    by (unfold c2, vsub, vscale, vneg, dot; cbn [fst snd];
        f_equal; unfold Rdiv; ring).
  rewrite !norm_vneg. unfold vadd, vscale, vneg; cbn [fst snd]. f_equal; ring.
Qed.

(** The two lists of a pair do not depend on which member is [self]: what
    [other] receives from [self] is what it would compute as [self]. *)
Lemma compute_semi_plan_swap (A B : Aircraft) (D T : R) :
  compute_semi_plan B A D T
  = ((compute_semi_plan A B D T).2, (compute_semi_plan A B D T).1).
Proof.
  rewrite !compute_semi_plan_eq, (detect_conflict_swap A B). cbv zeta.
  cbn [fst snd]. rewrite exhaust_vector_vneg.
  set (r := detect_conflict A B D T).
  set (c := exhaust_vector r.2.1.1 r.2.1.2 r.2.2).
  destruct (r.1); [|reflexivity]. cbn [fst snd]. rewrite vneg_vneg.
  unfold half_plane, dot, vneg, vadd, vsub, vdiv; cbn [fst snd].
  f_equal; do 4 f_equal; unfold Rdiv; ring.
Qed.

Lemma plans_swap (l : list Aircraft) (D T : R) (i j : nat) :
  plans l D T j i = ((plans l D T i j).2, (plans l D T i j).1).
Proof.
  unfold plans. destruct (l !! i) as [a|], (l !! j) as [b|]; try reflexivity.
  apply compute_semi_plan_swap.
Qed.

Lemma piece_swap (l : list Aircraft) (D T : R) (k : nat) (p : nat * nat) :
  piece l D T k (swap_pair p) = piece l D T k p.
Proof.
  destruct p as [i j]. unfold piece, swap_pair; cbn [fst snd].
  rewrite (plans_swap l D T i j). cbn [fst snd].
  destruct (Nat.eqb_spec k j), (Nat.eqb_spec k i); subst; try reflexivity.
  rewrite (plans_swap l D T i i) at 1. reflexivity.
Qed.

Lemma conflict_at_swap (l : list Aircraft) (D T : R) (p : nat * nat) :
  conflict_at l D T (swap_pair p) = conflict_at l D T p.
Proof.
  destruct p as [i j]. unfold conflict_at, swap_pair; cbn [fst snd].
  destruct (l !! i) as [a|], (l !! j) as [b|]; try reflexivity.
  rewrite (detect_conflict_swap a b). reflexivity.
Qed.

Lemma piece_unorder (l : list Aircraft) (D T : R) (k : nat) (p : nat * nat) :
  piece l D T k (unorder p) = piece l D T k p.
Proof. unfold unorder. destruct (p.1 <=? p.2)%nat; [reflexivity|apply piece_swap]. Qed.

Lemma conflict_at_unorder (l : list Aircraft) (D T : R) (p : nat * nat) :
  conflict_at l D T (unorder p) = conflict_at l D T p.
Proof.
  unfold unorder. destruct (p.1 <=? p.2)%nat; [reflexivity|apply conflict_at_swap].
Qed.

Lemma count_pairs_Permutation (f : nat * nat -> bool) (ps qs : list (nat * nat)) :
  Permutation ps qs -> count_pairs f ps = count_pairs f qs.
Proof.
  unfold count_pairs. intros H. f_equal.
  induction H as [|x ps qs H IH|x y ps|ps qs rs H1 IH1 H2 IH2]; cbn.
  - reflexivity.
  - destruct (f x); cbn; congruence.
  - destruct (f x), (f y); reflexivity.
  - congruence.
Qed.

Lemma flat_map_fmap {A B C : Type} (f : B -> list C) (g : A -> B) (l : list A) :
  flat_map f (g <$> l) = flat_map (fun x => f (g x)) l.
Proof. induction l as [|x l IH]; cbn; [reflexivity|]. rewrite IH. reflexivity. Qed.

Lemma count_pairs_fmap (f : nat * nat -> bool) (g : nat * nat -> nat * nat)
      (ps : list (nat * nat)) :
  count_pairs f (g <$> ps) = count_pairs (fun p => f (g p)) ps.
Proof.
  unfold count_pairs. f_equal.
  induction ps as [|p ps IH]; cbn; [reflexivity|].
  destruct (f (g p)); cbn; congruence.
Qed.

(** Any enumeration of the unordered pairs, in any order and with either
    member first, gives the same alert count and, to every aircraft, the
    same constraints up to their order. *)
Lemma scan_order_independent (l : list Aircraft) (D T : R) (N : nat)
      (ps : list (nat * nat)) :
  Permutation (unorder <$> ps) (all_pairs N) ->
  count_pairs (conflict_at l D T) ps = count_pairs (conflict_at l D T) (all_pairs N)
  /\ forall k, Permutation (flat_map (piece l D T k) ps)
                           (flat_map (piece l D T k) (all_pairs N)).
Proof.
  intros H. split.
  - rewrite <- (count_pairs_Permutation _ _ _ H), count_pairs_fmap.
    apply count_pairs_ext. intros p. symmetry. apply conflict_at_unorder.
  - intros k. rewrite <- H, flat_map_fmap.
    rewrite (flat_map_ext (fun p => piece l D T k (unorder p)) (piece l D T k));
      [reflexivity|].
    intros p. apply piece_unorder.
Qed.

Section StepRefinement.

Variable minimize : Problem -> OptimizeResult.

(** The first loop of [run_one_step] in closed form. *)
Lemma scan_and_resolve_closed (s : Simulation) :
  scan_and_resolve minimize s
  = two_phase minimize (all_pairs (length (aircraft s))) s.
Proof.
  unfold scan_and_resolve.
  rewrite (outer_loop_invariant minimize s (length (aircraft s)))
    by apply Nat.le_refl.
  unfold two_phase. rewrite pairs_upto_all, firstn_all.
  f_equal. f_equal. f_equal.
  apply imap_ext. intros k a Hk. apply lookup_lt_Some in Hk.
  unfold partial_state.
  destruct (Nat.ltb_spec k (length (aircraft s))); [|lia].
  unfold accumulated. rewrite <- pairs_upto_all.
  rewrite (pieces_upto_stable _ _ _ (length (aircraft s)) k
             (length (aircraft s))) by lia.
  reflexivity.
Qed.

(** C2. The interleaved loop of [run_one_step] (scan the pairs of aircraft
    [i], resolve aircraft [i], next [i]) computes exactly what the strict
    two-phase protocol computes on the state frozen at the start of the
    step: every pair is scanned on start-of-step positions and headings, so
    each aircraft is resolved on the same accumulated constraint set, and
    [alerts] grows by the same amount.  Moreover the alert increment and
    each accumulated constraint set (up to the order of its half-planes) are
    the same for any other enumeration of the unordered pairs, in any order
    and with either member as [self]. *)
Theorem scan_and_resolve_two_phase (s : Simulation) :
  let N := length (aircraft s) in
  scan_and_resolve minimize s = two_phase minimize (all_pairs N) s
  /\ forall ps : list (nat * nat),
       Permutation (unorder <$> ps) (all_pairs N) ->
       alerts (two_phase minimize ps s).1
       = alerts (scan_and_resolve minimize s).1
       /\ forall k,
            Permutation (accumulated (aircraft s) (d s) (tau s) ps k)
                        (accumulated (aircraft s) (d s) (tau s) (all_pairs N) k).
Proof.
  intros N.
  pose proof (scan_and_resolve_closed s) as Heq. fold N in Heq.
  split; [exact Heq|].
  intros ps Hps. rewrite Heq.
  destruct (scan_order_independent (aircraft s) (d s) (tau s) N ps Hps)
    as [Hc Hp].
  split.
  - unfold two_phase; cbn [fst alerts set_alerts set_aircraft].
    rewrite Hc. reflexivity.
  - exact Hp.
Qed.

End StepRefinement.

Lemma scan_and_resolve_two_phase_witness :
  alerts (two_phase solver_x0 [(1, 0)%nat] encounter).1
  = alerts (scan_and_resolve solver_x0 encounter).1
  /\ Permutation
       (accumulated (aircraft encounter) (d encounter) (tau encounter)
                    [(1, 0)%nat] 0)
       (accumulated (aircraft encounter) (d encounter) (tau encounter)
                    (all_pairs 2) 0).
Proof.
  destruct (proj2 (scan_and_resolve_two_phase solver_x0 encounter)
                  [(1, 0)%nat]) as [Ha Hp].
  - apply Permutation_refl.
  - split; [exact Ha | apply Hp].
Defined.

(** ** SimulationStepper: motion, metrics and the returned status *)

Lemma close_at_true_iff (l : list Aircraft) (D : R) (p : nat * nat) :
  close_at l D p = true
  <-> exists ai aj, l !! p.1 = Some ai /\ l !! p.2 = Some aj
                    /\ norm (vsub (position ai) (position aj)) < D.
Proof.
  unfold close_at. split.
  - destruct (l !! p.1) as [ai|]; [|discriminate].
    destruct (l !! p.2) as [aj|]; [|discriminate].
    intros H. exists ai, aj. apply Rltb_true_iff in H. auto.
  - intros (ai & aj & -> & -> & H). apply Rltb_true_iff, H.
Qed.

Lemma separation_pair_closed (i j : nat) (s : Simulation) :
  separation_pair i j s
  = set_separation_losses
      (separation_losses s + int_of_bool (close_at (aircraft s) (d s) (i, j))) s.
Proof.
  unfold separation_pair, close_at; cbn [fst snd].
  destruct (aircraft s !! i) as [ai|], (aircraft s !! j) as [aj|];
    try reflexivity;
    destruct s; unfold set_separation_losses; cbn; f_equal; lia.
Qed.

Lemma separation_list_closed (ps : list (nat * nat)) (s : Simulation) :
  foldl (fun s p => separation_pair p.1 p.2 s) s ps
  = set_separation_losses
      (separation_losses s + count_pairs (close_at (aircraft s) (d s)) ps) s.
Proof.
  revert s. induction ps as [|[i j] ps IH]; intros s.
  - cbn. destruct s; unfold set_separation_losses, count_pairs; cbn.
    f_equal. lia.
  - cbn [foldl fst snd]. rewrite IH, separation_pair_closed.
    change ((i, j) :: ps) with ([(i, j)] ++ ps).
    rewrite count_pairs_app, count_pairs_one.
    destruct s; unfold set_separation_losses; cbn. f_equal. lia.
Qed.

Lemma foldl_flat_map {A B C : Type} (f : A -> C -> A) (g : B -> list C)
      (l : list B) (x : A) :
  foldl f x (flat_map g l) = foldl (fun a i => foldl f a (g i)) x l.
Proof.
  revert x. induction l as [|b l IH]; intros x; [reflexivity|].
  cbn. rewrite foldl_app. apply IH.
Qed.

Lemma foldl_ext_all {A B : Type} (f g : A -> B -> A) (l : list B) (x : A) :
  (forall a b, f a b = g a b) -> foldl f x l = foldl g x l.
Proof.
  intros H. revert x. induction l as [|b l IH]; intros x; [reflexivity|].
  cbn. rewrite H. apply IH.
Qed.

Lemma check_separation_closed (s : Simulation) :
  check_separation s
  = set_separation_losses
      (separation_losses s
       + count_pairs (close_at (aircraft s) (d s))
                     (all_pairs (length (aircraft s)))) s.
Proof.
  rewrite <- separation_list_closed. unfold check_separation, all_pairs.
  rewrite foldl_flat_map. apply foldl_ext_all. intros s' i.
  unfold row. rewrite foldl_fmap. reflexivity.
Qed.

(** The pairs enumerated by the nested loops are the pairs [i < j < N],
    each once. *)
Lemma elem_of_pairs_upto (N i : nat) (p : nat * nat) :
  p ∈ pairs_upto N i <-> (p.1 < i)%nat /\ (p.1 < p.2)%nat /\ (p.2 < N)%nat.
Proof.
  induction i as [|i IH].
  - unfold pairs_upto; cbn. rewrite elem_of_nil. lia.
  - rewrite pairs_upto_S, elem_of_app, IH, elem_of_row. lia.
Qed.

Lemma elem_of_all_pairs (N : nat) (p : nat * nat) :
  p ∈ all_pairs N <-> (p.1 < p.2)%nat /\ (p.2 < N)%nat.
Proof. rewrite <- pairs_upto_all, elem_of_pairs_upto. lia. Qed.

Lemma NoDup_all_pairs (N : nat) : NoDup (all_pairs N).
Proof.
  rewrite <- pairs_upto_all. generalize N at 2. intros i.
  induction i as [|i IH]; [constructor|].
  rewrite pairs_upto_S. apply NoDup_app. split; [exact IH|]. split.
  - intros p Hp Hr. apply elem_of_pairs_upto in Hp. apply elem_of_row in Hr. lia.
  - unfold row. apply NoDup_fmap_2; [|apply NoDup_seq].
    intros x y H. congruence.
Qed.

Section StepEnd.

Variable minimize : Problem -> OptimizeResult.

(** [run_one_step] in closed form. *)
Lemma run_one_step_closed (s : Simulation) :
  run_one_step minimize s
  = let tp := two_phase minimize (all_pairs (length (aircraft s))) s in
    let s2 := move tp.1 in
    (check_separation (set_clock (time s2 + time_step s2) (step s2 + 1) s2),
     tp.2).
Proof.
  unfold run_one_step. rewrite scan_and_resolve_closed.
  destruct (two_phase minimize (all_pairs (length (aircraft s))) s).
  reflexivity.
Qed.

Lemma run_one_step_done (s : Simulation) :
  (run_one_step minimize s).2
  = forallb (fun a => reached_destination a 3) (aircraft s).
Proof. rewrite run_one_step_closed. reflexivity. Qed.

Lemma run_one_step_aircraft (s : Simulation) :
  aircraft (run_one_step minimize s).1
  = imap (fun k a =>
            move_one (time_step s)
              (resolve_aircraft minimize
                 (extend_semi_plan
                    (accumulated (aircraft s) (d s) (tau s)
                                 (all_pairs (length (aircraft s))) k) a)))
         (aircraft s).
Proof.
  rewrite run_one_step_closed. cbv zeta. cbn [fst].
  rewrite check_separation_closed.
  unfold two_phase, move; cbn [fst aircraft set_separation_losses set_clock
                               set_aircraft set_alerts time_step].
  apply list_eq. intros k. rewrite list_lookup_fmap, !list_lookup_imap.
  destruct (aircraft s !! k); reflexivity.
Qed.

Lemma run_one_step_parameters (s : Simulation) :
  d (run_one_step minimize s).1 = d s
  /\ tau (run_one_step minimize s).1 = tau s
  /\ time_step (run_one_step minimize s).1 = time_step s
  /\ length (aircraft (run_one_step minimize s).1) = length (aircraft s).
Proof.
  rewrite run_one_step_aircraft, length_imap.
  rewrite run_one_step_closed. cbv zeta. cbn [fst].
  rewrite check_separation_closed. repeat split; reflexivity.
Qed.

Lemma run_one_step_separation_losses (s : Simulation) :
  separation_losses (run_one_step minimize s).1
  = (separation_losses s
     + count_pairs (close_at (aircraft (run_one_step minimize s).1) (d s))
                   (all_pairs (length (aircraft s))))%Z.
Proof.
  rewrite run_one_step_aircraft.
  rewrite run_one_step_closed. cbv zeta. cbn [fst].
  rewrite check_separation_closed.
  cbn [separation_losses set_separation_losses aircraft set_clock d].
  unfold two_phase, move; cbn [fst aircraft set_separation_losses set_clock
                               set_aircraft set_alerts time_step d
                               separation_losses].
  rewrite length_fmap, length_imap. do 2 f_equal.
  - f_equal. apply list_eq. intros k.
    rewrite list_lookup_fmap, !list_lookup_imap.
    destruct (aircraft s !! k); reflexivity.
Qed.

Lemma reached_destination_true_iff (a : Aircraft) :
  reached_destination a 3 = true <-> within_epsilon a.
Proof.
  unfold reached_destination, within_epsilon, distance_to_go.
  apply Rleb_true_iff.
Qed.

Lemma forallb_reached_iff (l : list Aircraft) :
  forallb (fun a => reached_destination a 3) l = true <-> Forall within_epsilon l.
Proof.
  rewrite forallb_forall, Forall_forall. split; intros H a Ha.
  - apply reached_destination_true_iff, H, list_elem_of_In, Ha.
  - apply reached_destination_true_iff, H, list_elem_of_In, Ha.
Qed.

(** An aircraft within the tolerance is left where it is by the step. *)
Lemma move_one_reached (ts : R) (a : Aircraft) :
  reached_destination a 3 = true ->
  position (move_one ts a) = position a
  /\ destination (move_one ts a) = destination a.
Proof. intros H. unfold move_one. rewrite H. split; reflexivity. Qed.

(** C3 (as the program has it). [run_one_step] returns [done = true]
    exactly when every aircraft is within 3 of its destination at the start
    of the step, before the motion phase; in that case no aircraft moves and
    every aircraft is still within 3 after the step. *)
Theorem run_one_step_done_iff (s : Simulation) :
  ((run_one_step minimize s).2 = true <-> Forall within_epsilon (aircraft s))
  /\ ((run_one_step minimize s).2 = true ->
      Forall within_epsilon (aircraft (run_one_step minimize s).1)).
Proof.
  rewrite run_one_step_done, forallb_reached_iff. split; [reflexivity|].
  intros H. rewrite run_one_step_aircraft. apply Forall_lookup.
  intros k a' Hk. rewrite list_lookup_imap in Hk.
  destruct (aircraft s !! k) as [a|] eqn:Ha; [|discriminate].
  cbn in Hk. injection Hk as <-.
  pose proof (proj1 (Forall_lookup _ _) H k a Ha) as Hw.
  unfold within_epsilon, distance_to_go.
  destruct (move_one_reached (time_step s)
              (resolve_aircraft minimize
                 (extend_semi_plan
                    (accumulated (aircraft s) (d s) (tau s)
                                 (all_pairs (length (aircraft s))) k) a)))
    as [Hp Hd].
  { rewrite reached_destination_resolve. apply reached_destination_true_iff, Hw. }
  rewrite Hp, Hd. exact Hw.
Qed.

(** C9. After the motion phase, [separation_losses] grows by exactly the
    number of pairs [i < j < N] (each enumerated once) whose post-move
    distance is strictly less than [d]; it never decreases. *)
Theorem run_one_step_separation (s : Simulation) :
  let s' := (run_one_step minimize s).1 in
  let N := length (aircraft s) in
  separation_losses s'
  = (separation_losses s + count_pairs (close_at (aircraft s') (d s)) (all_pairs N))%Z
  /\ (forall p, close_at (aircraft s') (d s) p = true
                <-> exists ai aj,
                      aircraft s' !! p.1 = Some ai /\ aircraft s' !! p.2 = Some aj
                      /\ norm (vsub (position ai) (position aj)) < d s)
  /\ NoDup (all_pairs N)
  /\ (forall p, p ∈ all_pairs N <-> (p.1 < p.2)%nat /\ (p.2 < N)%nat)
  /\ (separation_losses s <= separation_losses s')%Z.
Proof.
  intros s' N. unfold s', N.
  split; [apply run_one_step_separation_losses|].
  split; [intros p; apply close_at_true_iff|].
  split; [apply NoDup_all_pairs|].
  split; [intros p; apply elem_of_all_pairs|].
  rewrite run_one_step_separation_losses. unfold count_pairs. lia.
Qed.

End StepEnd.

(** ** HeadingOptimizer, conflict branch *)

Lemma sp_coef_half_plane (c : Vec) (t : R) : sp_coef (half_plane c t) = [c.1; c.2].
Proof. reflexivity. Qed.

Lemma sp_threshold_half_plane (c : Vec) (t : R) : sp_threshold (half_plane c t) = t.
Proof. reflexivity. Qed.

Lemma Forall2_app_inv_length {A B : Type} (P : A -> B -> Prop)
      (l1 l2 : list A) (k1 k2 : list B) :
  length l1 = length k1 ->
  Forall2 P (l1 ++ l2) (k1 ++ k2) -> Forall2 P l1 k1 /\ Forall2 P l2 k2.
Proof.
  revert k1. induction l1 as [|x l1 IH]; intros [|y k1] Hlen H;
    try discriminate.
  - split; [constructor|exact H].
  - cbn in H. inversion H as [|? ? ? ? Hxy Hrest]; subst.
    destruct (IH k1) as [H1 H2]; [cbn in Hlen; lia|exact Hrest|].
    split; [constructor; assumption|exact H2].
Qed.

(** The rows and lower bounds that [compute_heading] assembles. *)
Lemma heading_problem_linear (self : Aircraft) :
  lc_A (pb_linear (heading_problem self))
  = (sp_coef <$> semi_plan self) ++ turning_rate_constraints self
  /\ lc_lb (pb_linear (heading_problem self))
     = (sp_threshold <$> semi_plan self) ++ [0; 0].
Proof.
  unfold heading_problem; cbn [pb_linear lc_A lc_lb]. split; [reflexivity|].
  f_equal. rewrite length_app, length_map.
  replace (length (semi_plan self) + length (turning_rate_constraints self)
           - length (semi_plan self))%nat with 2%nat
    by (unfold turning_rate_constraints; cbn [length]; lia).
  reflexivity.
Qed.

Section ConflictHeading.

Variable minimize : Problem -> OptimizeResult.


End ConflictHeading.

(** *** Sine and cosine of the turning angle of 9 degrees *)

Lemma sin_double_le (x : R) : 0 <= x -> x <= PI -> sin (2 * x) <= 2 * sin x.
Proof.
  intros H0 H1. rewrite sin_2a.
  pose proof (sin_ge_0 x H0 H1). pose proof (COS_bound x). nra.
Qed.

Lemma theta_max_eq : theta_max = PI / 20.
Proof. unfold theta_max, radians. field. Qed.

Lemma theta_min_eq : theta_min = - theta_max.
Proof. unfold theta_min, theta_max, radians. field. Qed.

Lemma sin_theta_max_bounds : 1 / 16 <= sin theta_max <= 1 / 2.
Proof.
  rewrite theta_max_eq. pose proof PI_RGT_0 as Hpi. split.
  - assert (H1 : sin (2 * (PI / 20)) <= 2 * sin (PI / 20))
      by (apply sin_double_le; lra).
    assert (H2 : sin (2 * (2 * (PI / 20))) <= 2 * sin (2 * (PI / 20)))
      by (apply sin_double_le; lra).
    assert (H3 : sin (2 * (2 * (2 * (PI / 20))))
                 <= 2 * sin (2 * (2 * (PI / 20))))
      by (apply sin_double_le; lra).
    assert (H4 : sin (PI / 6) <= sin (2 * (2 * (2 * (PI / 20)))))
      by (apply sin_incr_1; lra).
    rewrite sin_PI6 in H4. lra.
  - rewrite <- sin_PI6. apply sin_incr_1; lra.
Qed.

Lemma cos_theta_max_pos : 0 < cos theta_max.
Proof.
  rewrite theta_max_eq. pose proof PI_RGT_0. apply cos_gt_0; lra.
Qed.



(** *** An encounter that leaves no admissible heading

    An aircraft flying north meets one that crosses from the north-east;
    the exhaust vector is [(-1/100, 0)], so the half-plane asks for a first
    component of at most 1/200, while the two turning-rate rows of a
    heading [(0, 1)] only admit directions between -81 and 9 degrees. *)










(** ** A simulation with a single aircraft *)


Section SingleAircraft.

Variable minimize : Problem -> OptimizeResult.

(** One step of a simulation with one aircraft and no pending constraint:
    the heading becomes the unit vector toward the destination, then the
    aircraft moves unless it is within the tolerance. *)
Lemma single_step (s : Simulation) (a : Aircraft) :
  aircraft s = [a] -> semi_plan a = [] ->
  aircraft (run_one_step minimize s).1
  = [move_one (time_step s)
       (set_semi_plan [] (set_heading (toward_destination a) a))]
  /\ (run_one_step minimize s).2 = reached_destination a 3
  /\ alerts (run_one_step minimize s).1 = alerts s
  /\ step (run_one_step minimize s).1 = (step s + 1)%Z
  /\ time_step (run_one_step minimize s).1 = time_step s.
Proof.
  intros Ha Hsp. split; [|split; [|split; [|split]]].
  - rewrite run_one_step_aircraft, Ha. cbn [imap length].
    unfold accumulated, all_pairs; cbn [seq flat_map row Nat.sub fmap list_fmap].
    rewrite extend_semi_plan_nil. unfold resolve_aircraft, compute_heading.
    rewrite Hsp. reflexivity.
  - rewrite run_one_step_done, Ha. cbn [forallb]. apply andb_true_r.
  - rewrite run_one_step_closed. cbv zeta. cbn [fst].
    rewrite check_separation_closed. rewrite Ha.
    unfold two_phase, move, count_pairs, all_pairs;
      cbn [alerts set_separation_losses set_clock set_aircraft set_alerts fst
           length seq flat_map row Nat.sub fmap list_fmap List.filter
           aircraft].
    cbn. lia.
  - rewrite run_one_step_closed. cbv zeta. cbn [fst].
    rewrite check_separation_closed. reflexivity.
  - apply run_one_step_parameters.
Qed.

End SingleAircraft.

(** *** The status is computed before the motion *)

Lemma lone_distance : distance_to_go lone_aircraft = 4.
Proof.
  unfold distance_to_go, lone_aircraft, new_aircraft; cbn [destination position].
  apply norm_eq; [lra|]. unfold vsub; cbn [fst snd]. lra.
Qed.

Lemma lone_not_reached : reached_destination lone_aircraft 3 = false.
Proof.
  unfold reached_destination. fold (distance_to_go lone_aircraft).
  rewrite lone_distance. apply Rleb_false_iff. lra.
Qed.

(** C3 as stated fails: the lone aircraft starts 4 away from its
    destination; the step answers [done = false], yet after the motion
    phase of that step the aircraft is 1 away, within the tolerance of 3. *)
Lemma run_one_step_done_counterexample :
  (run_one_step solver_x0 lone).2 = false
  /\ Forall within_epsilon (aircraft (run_one_step solver_x0 lone).1).
Proof.
  destruct (single_step solver_x0 lone lone_aircraft eq_refl eq_refl)
    as (Ha & Hd & _).
  split; [rewrite Hd; exact lone_not_reached|].
  rewrite Ha. constructor; [|constructor].
  unfold move_one.
  replace (reached_destination
             (set_semi_plan [] (set_heading (toward_destination lone_aircraft)
                                            lone_aircraft)) 3)
    with (reached_destination lone_aircraft 3) by reflexivity.
  rewrite lone_not_reached. cbn [negb].
  unfold within_epsilon, toward_destination, distance_to_go at 1. rewrite lone_distance.
  unfold aircraft_move, set_trajectory, set_position, set_semi_plan,
    set_heading, lone_aircraft, new_aircraft, lone;
    cbn [position destination heading time_step].
  assert (Hn : norm (vsub (4, 0) (vadd (0, 0) (vscale 3 (vdiv (vsub (4, 0) (0, 0)) 4)))) = 1).
  { apply norm_eq; [lra|].
    unfold vsub, vadd, vscale, vdiv; cbn [fst snd]. field. }
  rewrite Hn. lra.
Qed.

(** *** Straight flight *)







Section SingleAircraftRun.

Variable minimize : Problem -> OptimizeResult.

Lemma run_S (fuel : nat) (s : Simulation) :
  run minimize (S fuel) s
  = if (run_one_step minimize s).2 then Some (run_one_step minimize s).1
    else run minimize fuel (run_one_step minimize s).1.
Proof. cbn [run]. destruct (run_one_step minimize s). reflexivity. Qed.


End SingleAircraftRun.



Section SingleAircraftClaim.

Variable minimize : Problem -> OptimizeResult.


End SingleAircraftClaim.


(** *** A time step that jumps over the destination *)






(** * Further properties of the program *)

(** ** The geometry predicates *)

Lemma Rleb_iff_eq (x y x' y' : R) :
  (x <= y <-> x' <= y') -> Rleb x y = Rleb x' y'.
Proof.
  intros H. destruct (Rleb x' y') eqn:E.
  - apply Rleb_true_iff, H, Rleb_true_iff, E.
  - apply Rleb_false_iff. apply Rleb_false_iff in E.
    destruct (Rle_dec x y) as [Hle|Hgt]; [apply H in Hle; lra|lra].
Qed.

(** X1. The region accepted by [is_inside_the_cone] is a convex cone of
    apex [pointA]: with two points it contains every combination
    [pointA + l (p - pointA) + m (q - pointA)] with [l, m >= 0]. *)
Theorem is_inside_the_cone_convex (p q pointA pointB v1 v2 : Vec) (l m : R) :
  0 <= l -> 0 <= m ->
  is_inside_the_cone p pointA pointB v1 v2 = true ->
  is_inside_the_cone q pointA pointB v1 v2 = true ->
  is_inside_the_cone
    (vadd pointA (vadd (vscale l (vsub p pointA)) (vscale m (vsub q pointA))))
    pointA pointB v1 v2 = true.
Proof.
  intros Hl Hm Hp Hq. apply is_inside_the_cone_iff in Hp, Hq.
  apply is_inside_the_cone_iff.
  unfold point_in_cone, same_side, det, vadd, vsub, vscale in *.
  cbn [fst snd] in *. destruct Hp as [Hp1 Hp2], Hq as [Hq1 Hq2].
  split; nra.
Qed.

Lemma is_inside_the_cone_convex_witness :
  is_inside_the_cone
    (vadd (0, 0) (vadd (vscale 2 (vsub (1, 0) (0, 0)))
                       (vscale 3 (vsub (1, 1) (0, 0)))))
    (0, 0) (2, 1) (1, 0) (1, 1) = true.
Proof.
  apply (is_inside_the_cone_convex (1, 0) (1, 1) (0, 0) (2, 1) (1, 0) (1, 1) 2 3).
  - lra.
  - lra.
  - apply is_inside_the_cone_iff.
    unfold point_in_cone, same_side, det, vsub; cbn [fst snd]. split; lra.
  - apply is_inside_the_cone_iff.
    unfold point_in_cone, same_side, det, vsub; cbn [fst snd]. split; lra.
Defined.

(** X2. The apex and the reference point are always accepted by
    [is_inside_the_cone], whatever the edges; and only the lines carried by
    the edges matter: multiplying an edge vector by a non-zero factor, in
    particular reversing it, does not change the answer. *)
Theorem is_inside_the_cone_edges (p pointA pointB v1 v2 : Vec) (k1 k2 : R) :
  k1 <> 0 -> k2 <> 0 ->
  is_inside_the_cone pointA pointA pointB v1 v2 = true
  /\ is_inside_the_cone pointB pointA pointB v1 v2 = true
  /\ is_inside_the_cone p pointA pointB (vscale k1 v1) (vscale k2 v2)
     = is_inside_the_cone p pointA pointB v1 v2.
Proof.
  intros Hk1 Hk2. split; [|split].
  - apply is_inside_the_cone_iff.
    unfold point_in_cone, same_side, det, vsub; cbn [fst snd]. split; nra.
  - apply is_inside_the_cone_iff.
    unfold point_in_cone, same_side; split; apply Rle_0_sqr.
  - unfold is_inside_the_cone, det, vsub, vscale; cbn [fst snd].
    assert (H1 : 0 < k1 ^ 2) by nra.
    assert (H2 : 0 < k2 ^ 2) by nra.
    f_equal; apply Rleb_iff_eq.
    + set (t := ((p.1 - pointA.1) * v1.2 - (p.2 - pointA.2) * v1.1)
                * ((pointB.1 - pointA.1) * v1.2 - (pointB.2 - pointA.2) * v1.1)).
      replace (((p.1 - pointA.1) * (k1 * v1.2) - (p.2 - pointA.2) * (k1 * v1.1))
               * ((pointB.1 - pointA.1) * (k1 * v1.2)
                  - (pointB.2 - pointA.2) * (k1 * v1.1)))
        with (k1 ^ 2 * t) by (unfold t; ring).
      split; intros H; nra.
    + set (t := ((p.1 - pointA.1) * v2.2 - (p.2 - pointA.2) * v2.1)
                * ((pointB.1 - pointA.1) * v2.2 - (pointB.2 - pointA.2) * v2.1)).
      replace (((p.1 - pointA.1) * (k2 * v2.2) - (p.2 - pointA.2) * (k2 * v2.1))
               * ((pointB.1 - pointA.1) * (k2 * v2.2)
                  - (pointB.2 - pointA.2) * (k2 * v2.1)))
        with (k2 ^ 2 * t) by (unfold t; ring).
      split; intros H; nra.
Qed.

Lemma is_inside_the_cone_edges_witness :
  is_inside_the_cone (3, 1) (0, 0) (2, 1) (vscale (-1) (1, 0)) (vscale 2 (1, 1))
  = is_inside_the_cone (3, 1) (0, 0) (2, 1) (1, 0) (1, 1).
Proof.
  apply (is_inside_the_cone_edges (3, 1) (0, 0) (2, 1) (1, 0) (1, 1) (-1) 2); lra.
Defined.

Lemma sum_sq_zero (x y : R) : x ^ 2 + y ^ 2 <= 0 -> x = 0 /\ y = 0.
Proof.
  intros H. apply Rplus_sqr_eq_0. rewrite !Rsqr_pow2.
  pose proof (sum_sq_nonneg x y). lra.
Qed.

(** X3. [is_inside_the_circle] only reads the square of the radius, so a
    negative radius gives the disk of its absolute value; the test is
    symmetric in point and center, the center is always inside, and with
    radius 0 the only point inside is the center. *)
Theorem is_inside_the_circle_radius (p c : Vec) (r : R) :
  is_inside_the_circle p c (- r) = is_inside_the_circle p c r
  /\ is_inside_the_circle c p r = is_inside_the_circle p c r
  /\ is_inside_the_circle c c r = true
  /\ (is_inside_the_circle p c 0 = true <-> p = c).
Proof.
  unfold is_inside_the_circle. split; [|split; [|split]].
  - apply Rleb_iff_eq. replace ((- r) ^ 2) with (r ^ 2) by ring. reflexivity.
  - apply Rleb_iff_eq.
    replace ((p.1 - c.1) ^ 2 + (p.2 - c.2) ^ 2)
      with ((c.1 - p.1) ^ 2 + (c.2 - p.2) ^ 2) by ring.
    reflexivity.
  - apply Rleb_true_iff. nra.
  - rewrite Rleb_true_iff. destruct p as [p1 p2], c as [c1 c2]; cbn [fst snd].
    split.
    + intros H. destruct (sum_sq_zero (c1 - p1) (c2 - p2)) as [H1 H2]; [lra|].
      apply vec_eq; lra.
    + intros H. injection H as -> ->. nra.
Qed.

(** ** The conflict detector *)

Lemma detect_conflict_true_iff (self other : Aircraft) (d tau : R) :
  let dp := vsub (position other) (position self) in
  let vr := vsub (heading self) (heading other) in
  let theta := atan (d / norm dp) in
  (detect_conflict self other d tau).1 = true
  <-> point_in_cone (vadd (position self) vr) (position self) (position other)
                    (rotate theta dp) (rotate (- theta) dp)
      /\ (point_in_disk vr (vdiv dp tau) (d / tau)
          \/ ~ point_in_disk vr (0, 0) (dp.1 / tau)).
Proof.
  intros dp vr theta. unfold detect_conflict. fold dp vr theta.
  cbn [fst snd]. rewrite mdot_rot, mdot_rot_inv.
  rewrite andb_true_iff, orb_true_iff, negb_true_iff.
  rewrite is_inside_the_cone_iff, is_inside_the_circle_iff.
  rewrite <- not_true_iff_false, is_inside_the_circle_iff.
  reflexivity.
Qed.

Lemma norm_rotate (theta : R) (v : Vec) : norm (rotate theta v) = norm v.
Proof.
  unfold norm, rotate; cbn [fst snd]. f_equal.
  pose proof (sin2_cos2 theta) as H. unfold Rsqr in H.
  replace ((cos theta * v.1 - sin theta * v.2) ^ 2
           + (sin theta * v.1 + cos theta * v.2) ^ 2)
    with ((sin theta * sin theta + cos theta * cos theta) * (v.1 ^ 2 + v.2 ^ 2))
    by ring.
  rewrite H. ring.
Qed.

(** X4. [detect_conflict] only depends on the relative position and the
    relative velocity of the two aircraft: translating both by the same
    vector and adding the same velocity to both headings changes neither
    the flag nor the geometry it returns. *)
Theorem detect_conflict_reframe (self other : Aircraft) (d tau : R) (w u : Vec) :
  detect_conflict (reframe w u self) (reframe w u other) d tau
  = detect_conflict self other d tau.
Proof.
  unfold detect_conflict, reframe; cbn [position heading set_heading set_position].
  replace (vsub (vadd (position other) w) (vadd (position self) w))
    with (vsub (position other) (position self))
    by (unfold vsub, vadd; cbn [fst snd]; apply vec_eq; ring).
  replace (vsub (vadd (heading self) u) (vadd (heading other) u))
    with (vsub (heading self) (heading other))
    by (unfold vsub, vadd; cbn [fst snd]; apply vec_eq; ring).
  f_equal. f_equal.
  unfold is_inside_the_cone. f_equal; apply Rleb_iff_eq;
    unfold det, vsub, vadd; cbn [fst snd];
    match goal with
    | |- 0 <= ?x <-> 0 <= ?y => replace x with y by ring; reflexivity
    end.
Qed.

(** X5. The two tangent vectors returned by [detect_conflict] have the norm
    of the relative position [dp], are placed symmetrically about it (same
    scalar product with [dp], sum along [dp]), and the relative velocity
    returned is [self.heading - other.heading]. *)
Theorem detect_conflict_tangents (self other : Aircraft) (d tau : R) :
  let dp := vsub (position other) (position self) in
  let theta := atan (d / norm dp) in
  let geom := (detect_conflict self other d tau).2 in
  geom.1.1 = vsub (heading self) (heading other)
  /\ norm geom.1.2 = norm dp /\ norm geom.2 = norm dp
  /\ dot geom.1.2 dp = cos theta * norm dp ^ 2
  /\ dot geom.2 dp = cos theta * norm dp ^ 2
  /\ vadd geom.1.2 geom.2 = vscale (2 * cos theta) dp.
Proof.
  intros dp theta geom. unfold geom, detect_conflict. fold dp theta.
  cbn [fst snd]. rewrite mdot_rot, mdot_rot_inv.
  split; [reflexivity|]. rewrite !norm_rotate, norm_sq.
  split; [reflexivity|]. split; [reflexivity|].
  unfold rotate, dot, vadd, vscale; cbn [fst snd]. rewrite cos_neg, sin_neg.
  split; [ring|]. split; [ring|]. apply vec_eq; ring.
Qed.

Lemma vsub_vadd_cancel (p v : Vec) : vsub (vadd p v) p = v.
Proof. destruct p, v. unfold vsub, vadd; cbn [fst snd]. apply vec_eq; ring. Qed.

(** A vector is on the same side of any edge as its non-negative
    multiples. *)
Lemma same_side_scaled (edge w : Vec) (k : R) :
  0 <= k -> same_side edge (vscale k w) w.
Proof.
  intros Hk. unfold same_side, det, vscale; cbn [fst snd].
  replace ((k * w.1 * edge.2 - k * w.2 * edge.1) * (w.1 * edge.2 - w.2 * edge.1))
    with (k * (w.1 * edge.2 - w.2 * edge.1) ^ 2) by ring.
  apply Rmult_le_pos; [exact Hk|apply pow2_ge_0].
Qed.

(** X6. A relative velocity that carries [self] onto the position of
    [other] at a time [t] within the lookahead, [0 < t <= tau], is always
    reported as a conflict, whatever the separation distance. *)
Theorem detect_conflict_collision_course (self other : Aircraft) (d tau t : R) :
  position self <> position other -> 0 < t <= tau ->
  vsub (heading self) (heading other)
  = vscale (/ t) (vsub (position other) (position self)) ->
  (detect_conflict self other d tau).1 = true.
Proof.
  intros Hpos [Ht Htau] Hvr. apply detect_conflict_true_iff. rewrite Hvr.
  set (dp := vsub (position other) (position self)).
  assert (Hit : 0 < / t) by (apply Rinv_0_lt_compat; exact Ht).
  assert (Hdp : 0 < dp.1 ^ 2 + dp.2 ^ 2).
  { pose proof (norm_pos dp) as Hn. rewrite <- norm_sq.
    assert (0 < norm dp).
    { apply Hn. unfold dp. intros H. apply Hpos. symmetry.
      apply vsub_eq_zero. exact H. }
    nra. }
  split.
  - unfold point_in_cone. rewrite vsub_vadd_cancel. fold dp.
    split; apply same_side_scaled; lra.
  - destruct (Rle_lt_or_eq_dec t tau Htau) as [Hlt| ->].
    + right. unfold point_in_disk, vscale; cbn [fst snd].
      assert (Hitau : 0 < / tau) by (apply Rinv_0_lt_compat; lra).
      assert (Hinv : / tau < / t) by (apply Rinv_lt_contravar; nra).
      unfold Rdiv. intros H.
      assert (H1 : (/ tau) ^ 2 < (/ t) ^ 2) by nra.
      assert (H2 : (dp.1 ^ 2 + dp.2 ^ 2) * (/ tau) ^ 2
                   < (dp.1 ^ 2 + dp.2 ^ 2) * (/ t) ^ 2)
        by (apply Rmult_lt_compat_l; assumption).
      pose proof (pow2_ge_0 (dp.2 * / tau)). nra.
    + left. unfold point_in_disk, vscale, vdiv; cbn [fst snd]. unfold Rdiv.
      replace ((/ tau * dp.1 - dp.1 * / tau) ^ 2
               + (/ tau * dp.2 - dp.2 * / tau) ^ 2) with 0 by ring.
      apply pow2_ge_0.
Qed.

Lemma detect_conflict_collision_course_witness :
  (detect_conflict (new_aircraft (0, 0) (4, 0) (100, 0))
                   (new_aircraft (8, 0) (0, 0) (8, 0)) 1 3).1 = true.
Proof.
  apply (detect_conflict_collision_course _ _ 1 3 2).
  - intros H. injection H as H. lra.
  - lra.
  - unfold vsub, vscale, new_aircraft; cbn [fst snd heading position].
    apply vec_eq; lra.
Defined.




Lemma det_rotate_self (theta : R) (v : Vec) :
  det v (rotate theta v) = sin theta * (v.1 ^ 2 + v.2 ^ 2).
Proof. unfold det, rotate; cbn [fst snd]. ring. Qed.

Lemma sin_atan_pos (x : R) : 0 < x -> 0 < sin (atan x).
Proof.
  intros Hx. rewrite sin_atan. apply Rdiv_lt_0_compat; [exact Hx|].
  apply sqrt_lt_R0. pose proof (Rle_0_sqr x). lra.
Qed.

Lemma diverging_no_conflict (self other : Aircraft) (d tau k : R) :
  position self <> position other -> 0 < d -> 0 < k ->
  vsub (heading self) (heading other)
  = vscale (- k) (vsub (position other) (position self)) ->
  (detect_conflict self other d tau).1 = false.
Proof.
  intros Hpos Hd Hk Hvr. apply not_true_iff_false. intros H.
  apply detect_conflict_true_iff in H. destruct H as [[H1 _] _].
  rewrite Hvr in H1. set (dp := vsub (position other) (position self)) in *.
  assert (Hn : 0 < norm dp).
  { apply norm_pos. unfold dp. intros H. apply Hpos. symmetry.
    apply vsub_eq_zero. exact H. }
  assert (Hs : 0 < sin (atan (d / norm dp)))
    by (apply sin_atan_pos, Rdiv_lt_0_compat; assumption).
  assert (Hdet : 0 < det dp (rotate (atan (d / norm dp)) dp)).
  { rewrite det_rotate_self, <- norm_sq.
    apply Rmult_lt_0_compat; [exact Hs|]. apply pow_lt. exact Hn. }
  unfold same_side in H1. rewrite vsub_vadd_cancel in H1.
  replace (det (vscale (- k) dp) (rotate (atan (d / norm dp)) dp))
    with (- k * det dp (rotate (atan (d / norm dp)) dp)) in H1
    by (unfold det, vscale; cbn [fst snd]; ring).
  set (D := det dp (rotate (atan (d / norm dp)) dp)) in *.
  assert (0 < k * D) by (apply Rmult_lt_0_compat; assumption).
  assert (0 < k * D * D) by (apply Rmult_lt_0_compat; assumption).
  lra.
Qed.

(** X8. A relative velocity pointing straight away from [other]
    ([self.heading - other.heading] a negative multiple of the relative
    position) is never reported as a conflict, for a positive separation
    distance. *)
Theorem detect_conflict_diverging (self other : Aircraft) (d tau k : R) :
  position self <> position other -> 0 < d -> 0 < k ->
  vsub (heading self) (heading other)
  = vscale (- k) (vsub (position other) (position self)) ->
  (detect_conflict self other d tau).1 = false.
Proof. apply diverging_no_conflict. Qed.

Lemma detect_conflict_diverging_witness :
  (detect_conflict (new_aircraft (0, 0) (-1, 0) (-100, 0))
                   (new_aircraft (8, 0) (1, 0) (100, 0)) 5 3).1 = false.
Proof.
  apply (detect_conflict_diverging _ _ 5 3 (1 / 4)).
  - intros H. injection H as H. lra.
  - lra.
  - lra.
  - unfold vsub, vscale, new_aircraft; cbn [fst snd heading position].
    apply vec_eq; lra.
Defined.

(** ** The exhaust vector *)

(** The correction toward one edge: [vr] plus the correction is the
    projection of [vr] on the edge, orthogonal to the correction. *)
Lemma projection_residual (vr t : Vec) :
  t <> (0, 0) ->
  let c := vsub (vscale (dot t vr / norm t ^ 2) t) vr in
  det (vadd vr c) t = 0 /\ dot c (vadd vr c) = 0
  /\ norm vr ^ 2 = norm (vadd vr c) ^ 2 + norm c ^ 2.
Proof.
  intros Ht c.
  assert (Hn : t.1 ^ 2 + t.2 ^ 2 <> 0).
  { pose proof (norm_pos t Ht). rewrite <- norm_sq. nra. }
  assert (Hu : vadd vr c = vscale (dot t vr / norm t ^ 2) t).
  { unfold c, vadd, vsub, vscale; cbn [fst snd]. apply vec_eq; ring. }
  assert (Hdot : dot c (vadd vr c) = 0).
  { rewrite Hu. unfold c. rewrite norm_sq.
    unfold dot, vsub, vscale; cbn [fst snd]. field. exact Hn. }
  split; [|split].
  - rewrite Hu. unfold det, vscale; cbn [fst snd]. ring.
  - exact Hdot.
  - rewrite !norm_sq. unfold dot in Hdot.
    unfold vadd in *; cbn [fst snd] in *. nra.
Qed.

Lemma exhaust_vector_cases (vr t1 t2 : Vec) :
  exhaust_vector vr t1 t2 = vsub (vscale (dot t1 vr / norm t1 ^ 2) t1) vr
  \/ exhaust_vector vr t1 t2 = vsub (vscale (dot t2 vr / norm t2 ^ 2) t2) vr.
Proof.
  unfold exhaust_vector, exhaust_candidates.
  set (c1 := vsub (vscale (dot t1 vr / norm t1 ^ 2) t1) vr).
  set (c2 := vsub (vscale (dot t2 vr / norm t2 ^ 2) t2) vr).
  destruct (Rle_dec (norm c1) (norm c2)) as [Hle|Hgt].
  - left. apply blend_le. exact Hle.
  - right. apply blend_gt. lra.
Qed.

Lemma exhaust_vector_orthogonal (vr t1 t2 : Vec) :
  t1 <> (0, 0) -> t2 <> (0, 0) ->
  let c := exhaust_vector vr t1 t2 in
  (det (vadd vr c) t1 = 0 \/ det (vadd vr c) t2 = 0)
  /\ dot c (vadd vr c) = 0
  /\ norm vr ^ 2 = norm (vadd vr c) ^ 2 + norm c ^ 2.
Proof.
  intros H1 H2 c. unfold c.
  destruct (exhaust_vector_cases vr t1 t2) as [-> | ->].
  - destruct (projection_residual vr t1 H1) as (Ha & Hb & Hc). auto.
  - destruct (projection_residual vr t2 H2) as (Ha & Hb & Hc). auto.
Qed.

(** X9. For non-zero tangent vectors, adding the exhaust vector [c] to the
    relative velocity [vr] puts it on the line of one of the two tangents;
    [c] is orthogonal to the corrected velocity [vr + c], and it is never
    longer than [vr]. *)
Theorem exhaust_vector_reaches_edge (vr t1 t2 : Vec) :
  t1 <> (0, 0) -> t2 <> (0, 0) ->
  let c := exhaust_vector vr t1 t2 in
  (det (vadd vr c) t1 = 0 \/ det (vadd vr c) t2 = 0)
  /\ dot c (vadd vr c) = 0
  /\ norm c <= norm vr.
Proof.
  intros H1 H2 c.
  destruct (exhaust_vector_orthogonal vr t1 t2 H1 H2) as (Ha & Hb & Hc).
  fold c in Ha, Hb, Hc. split; [exact Ha|]. split; [exact Hb|].
  pose proof (norm_nonneg c). pose proof (norm_nonneg vr).
  pose proof (pow2_ge_0 (norm (vadd vr c))). nra.
Qed.

Lemma exhaust_vector_reaches_edge_witness :
  norm (exhaust_vector (3, 0) (4, 3) (4, -3)) <= norm (3, 0).
Proof.
  apply (exhaust_vector_reaches_edge (3, 0) (4, 3) (4, -3)).
  - intros H. injection H as H1 H2. lra.
  - intros H. injection H as H1 H2. lra.
Defined.

(** X10. When the relative velocity already lies on the line of one of the
    two (non-zero) tangents, the exhaust vector is zero: no correction. *)
Theorem exhaust_vector_on_edge (vr t1 t2 : Vec) (k : R) :
  t1 <> (0, 0) -> t2 <> (0, 0) ->
  vr = vscale k t1 \/ vr = vscale k t2 ->
  exhaust_vector vr t1 t2 = (0, 0).
Proof.
  intros H1 H2 Hvr.
  assert (Hn1 : t1.1 ^ 2 + t1.2 ^ 2 <> 0)
    by (pose proof (norm_pos t1 H1); rewrite <- norm_sq; nra).
  assert (Hn2 : t2.1 ^ 2 + t2.2 ^ 2 <> 0)
    by (pose proof (norm_pos t2 H2); rewrite <- norm_sq; nra).
  unfold exhaust_vector, exhaust_candidates.
  set (c1 := vsub (vscale (dot t1 vr / norm t1 ^ 2) t1) vr).
  set (c2 := vsub (vscale (dot t2 vr / norm t2 ^ 2) t2) vr).
  assert (Hz : norm (0, 0) = 0) by (apply norm_zero_iff; reflexivity).
  destruct Hvr as [Hvr|Hvr].
  - assert (Hc1 : c1 = (0, 0)).
    { unfold c1. rewrite norm_sq, Hvr.
      unfold vsub, vscale, dot; cbn [fst snd]. apply vec_eq; field; exact Hn1. }
    rewrite blend_le; [exact Hc1|]. rewrite Hc1, Hz. apply norm_nonneg.
  - assert (Hc2 : c2 = (0, 0)).
    { unfold c2. rewrite norm_sq, Hvr.
      unfold vsub, vscale, dot; cbn [fst snd]. apply vec_eq; field; exact Hn2. }
    destruct (Rle_dec (norm c1) (norm c2)) as [Hle|Hgt].
    + rewrite blend_le by exact Hle. apply norm_zero_iff.
      rewrite Hc2, Hz in Hle. pose proof (norm_nonneg c1). lra.
    + rewrite blend_gt by lra. exact Hc2.
Qed.

Lemma exhaust_vector_on_edge_witness :
  exhaust_vector (vscale 2 (4, 3)) (4, 3) (4, -3) = (0, 0).
Proof.
  apply (exhaust_vector_on_edge (vscale 2 (4, 3)) (4, 3) (4, -3) 2).
  - intros H. injection H as H1 H2. lra.
  - intros H. injection H as H1 H2. lra.
  - left. reflexivity.
Defined.

(** ** The half-planes of a pair *)

(** X11. [compute_semi_plan] is reciprocal: called with the two aircraft
    exchanged it yields the same two lists, exchanged; what [other]
    receives from [self] is what it would compute for itself. *)
Theorem compute_semi_plan_reciprocal (A B : Aircraft) (D T : R) :
  compute_semi_plan B A D T
  = ((compute_semi_plan A B D T).2, (compute_semi_plan A B D T).1).
Proof. apply compute_semi_plan_swap. Qed.

Lemma tangents_nonzero (self other : Aircraft) (d tau : R) :
  position self <> position other ->
  let geom := (detect_conflict self other d tau).2 in
  geom.1.2 <> (0, 0) /\ geom.2 <> (0, 0).
Proof.
  intros Hpos geom. unfold geom, detect_conflict; cbn [fst snd].
  rewrite mdot_rot, mdot_rot_inv.
  set (dp := vsub (position other) (position self)).
  assert (Hn : 0 < norm dp).
  { apply norm_pos. unfold dp. intros H. apply Hpos. symmetry.
    apply vsub_eq_zero. exact H. }
  split; intros H; apply norm_zero_iff in H; rewrite norm_rotate in H; lra.
Qed.

(** X12. The two half-planes of a conflicting pair have opposite thresholds
    and opposite coefficients: they are the two sides of one line
    [c . h = threshold].  The present relative velocity [vr] has
    [c . vr <= 0]; any two new headings that satisfy their half-plane have a
    relative velocity with [c . vr' >= 0]. *)
Theorem compute_semi_plan_separates (self other : Aircraft) (d tau : R)
        (p_ij p_ji : SemiPlan) :
  position self <> position other ->
  compute_semi_plan self other d tau = ([p_ij], [p_ji]) ->
  sp_threshold p_ji = - sp_threshold p_ij
  /\ (forall h, row_dot (sp_coef p_ji) h = - row_dot (sp_coef p_ij) h)
  /\ row_dot (sp_coef p_ij) (vsub (heading self) (heading other)) <= 0
  /\ (forall hs ho,
        sp_threshold p_ij <= row_dot (sp_coef p_ij) hs ->
        sp_threshold p_ji <= row_dot (sp_coef p_ji) ho ->
        0 <= row_dot (sp_coef p_ij) (vsub hs ho)).
Proof.
  intros Hpos Hplan. rewrite compute_semi_plan_eq in Hplan. cbv zeta in Hplan.
  destruct (tangents_nonzero self other d tau Hpos) as [Ht1 Ht2].
  assert (Hvr : (detect_conflict self other d tau).2.1.1
                = vsub (heading self) (heading other)) by reflexivity.
  set (r := detect_conflict self other d tau) in *.
  destruct (exhaust_vector_orthogonal r.2.1.1 r.2.1.2 r.2.2 Ht1 Ht2)
    as (_ & Horth & _).
  set (c := exhaust_vector r.2.1.1 r.2.1.2 r.2.2) in *.
  destruct (r.1); [|discriminate]. injection Hplan as <- <-.
  rewrite Hvr in Horth.
  rewrite !sp_threshold_half_plane, !sp_coef_half_plane.
  unfold row_dot; cbn [nth]. unfold dot, vneg, vadd, vsub, vdiv in *.
  cbn [fst snd] in *.
  assert (Hsum : c.1 * - ((heading self).1 + c.1 / 2)
                 + c.2 * - ((heading self).2 + c.2 / 2)
                 + (c.1 * ((heading other).1 - c.1 / 2)
                    + c.2 * ((heading other).2 - c.2 / 2)) = 0) by lra.
  split; [lra|]. split; [intros h; ring|]. split; [nra|].
  intros hs ho Hs Ho. lra.
Qed.

Lemma compute_semi_plan_separates_witness :
  sp_threshold [27 / 25; - (36 / 25); - (27 / 50)]
  = - sp_threshold [- 27 / 25; 36 / 25; 27 / 50].
Proof.
  apply (compute_semi_plan_separates ac_west ac_east 3 1
           [- 27 / 25; 36 / 25; 27 / 50] [27 / 25; - (36 / 25); - (27 / 50)]).
  - intros H. injection H as H. lra.
  - rewrite compute_semi_plan_eq, encounter_detect. cbv zeta. cbn [fst snd].
    rewrite encounter_exhaust.
    unfold half_plane, dot, vneg, vadd, vsub, vdiv, ac_west, ac_east,
      new_aircraft; cbn [fst snd heading].
    repeat (f_equal; try lra).
Defined.

(** ** The optimisation problem of [compute_heading] *)

(** X13. The derivatives handed to the solver are those of the functions
    handed to it: the objective is equal to its expansion of order two with
    [obj_jac] and [obj_hess], and the speed constraint, weighted by a
    multiplier [v0], to its expansion with [cs_jacobian] and
    [cs_hessian]. *)
Theorem heading_problem_derivatives (self : Aircraft) (h dh : Vec) (v0 : R) :
  let pb := heading_problem self in
  let nc := pb_nonlinear pb in
  pb_obj pb (vadd h dh)
  = pb_obj pb h + row_dot (pb_jac pb h) dh
    + / 2 * dot dh (mdot (pb_hess pb h) dh)
  /\ v0 * nc_fun nc (vadd h dh)
     = v0 * nc_fun nc h + v0 * row_dot (nc_jac nc h) dh
       + / 2 * dot dh (mdot (nc_hess nc h [v0]) dh).
Proof.
  unfold heading_problem; cbn [pb_obj pb_jac pb_hess pb_nonlinear nc_fun nc_jac
                               nc_hess].
  generalize (h_star self) (norm (heading self)). intros hs nv.
  unfold mdot. unfold row_dot, dot, vadd; cbn [nth fst snd]. split; field.
Qed.

(** X14. The problem is well formed: the constraint matrix, the lower
    bounds and the upper bounds have one entry per accumulated half-plane
    plus two, every upper bound is infinite, and the initial guess is the
    current heading, which satisfies the speed constraint exactly. *)
Theorem heading_problem_shape (self : Aircraft) :
  let pb := heading_problem self in
  let n := (length (semi_plan self) + 2)%nat in
  length (lc_A (pb_linear pb)) = n
  /\ length (lc_lb (pb_linear pb)) = n
  /\ lc_ub (pb_linear pb) = replicate n PlusInf
  /\ pb_x0 pb = heading self
  /\ nonlinear_feasible 0 (pb_nonlinear pb) (pb_x0 pb).
Proof.
  cbv zeta. destruct (heading_problem_linear self) as [HA Hl].
  rewrite HA, Hl, !length_app, !length_fmap.
  split; [reflexivity|]. split; [reflexivity|]. split.
  - unfold heading_problem; cbn [pb_linear lc_ub].
    rewrite length_app, length_map. reflexivity.
  - split; [reflexivity|].
    unfold nonlinear_feasible, heading_problem;
      cbn [pb_nonlinear pb_x0 nc_fun nc_lb nc_ub].
    rewrite norm_sq. lra.
Qed.

Lemma turning_rows_at_heading (self : Aircraft) :
  exists r1 r2,
    turning_rate_constraints self = [r1; r2]
    /\ row_dot r1 (heading self) = sin theta_max * norm (heading self) ^ 2
    /\ row_dot r2 (heading self)
       = cos theta_max * ((heading self).1 ^ 2 - (heading self).2 ^ 2)
         + 2 * sin theta_max * (heading self).1 * (heading self).2.
Proof.
  eexists _, _. split; [reflexivity|].
  rewrite norm_sq, theta_min_eq.
  unfold row_dot, mdot, rot, dot; cbn [nth fst snd].
  rewrite cos_neg, sin_neg. split; ring.
Qed.

(** X15. The current heading always satisfies the first turning-rate row
    (its product with the row is [sin theta_max * |heading|^2 >= 0]), but
    not always the second: for a non-zero heading along the y axis the
    linear constraints of the problem reject the current heading, whatever
    the accumulated half-planes. *)
Theorem heading_problem_initial_guess (self : Aircraft) :
  (exists r1 r2,
     lc_A (pb_linear (heading_problem self))
     = (sp_coef <$> semi_plan self) ++ [r1; r2]
     /\ 0 <= row_dot r1 (heading self))
  /\ ((heading self).1 = 0 -> (heading self).2 <> 0 ->
      ~ linear_feasible 0 (pb_linear (heading_problem self)) (heading self)).
Proof.
  destruct (turning_rows_at_heading self) as (r1 & r2 & Hrows & H1 & H2).
  destruct (heading_problem_linear self) as [HA Hl].
  pose proof sin_theta_max_bounds as Hs. pose proof cos_theta_max_pos as Hc.
  split.
  - exists r1, r2. rewrite HA, Hrows. split; [reflexivity|].
    rewrite H1. apply Rmult_le_pos; [lra|apply pow2_ge_0].
  - intros Hx Hy [Hlb _]. rewrite HA, Hl, Hrows in Hlb.
    apply Forall2_app_inv_length in Hlb; [|rewrite !length_fmap; reflexivity].
    destruct Hlb as [_ Hturn].
    inversion Hturn as [|? ? ? ? _ Hrest]; subst.
    inversion Hrest as [|? ? ? ? Hr2 _]; subst.
    rewrite H2, Hx in Hr2.
    assert (0 < (heading self).2 ^ 2) by nra. nra.
Qed.

Lemma heading_problem_initial_guess_witness :
  ~ linear_feasible 0 (pb_linear (heading_problem cornered)) (heading cornered).
Proof.
  apply (proj2 (heading_problem_initial_guess cornered)).
  - reflexivity.
  - cbn [heading cornered snd]. lra.
Defined.

(** ** One step of the simulation *)

Section StepFrame.

Variable minimize : Problem -> OptimizeResult.

Lemma run_one_step_lookup (s : Simulation) (i : nat) (a : Aircraft) :
  aircraft s !! i = Some a ->
  aircraft (run_one_step minimize s).1 !! i
  = Some (move_one (time_step s)
            (resolve_aircraft minimize
               (extend_semi_plan
                  (accumulated (aircraft s) (d s) (tau s)
                               (all_pairs (length (aircraft s))) i) a))).
Proof.
  intros Ha. rewrite run_one_step_aircraft, list_lookup_imap, Ha. reflexivity.
Qed.

(** What one step does to an aircraft, whatever constraints [p] it has
    accumulated. *)
Lemma move_one_resolve (ts : R) (p : list SemiPlan) (a : Aircraft) :
  let a' := move_one ts (resolve_aircraft minimize (extend_semi_plan p a)) in
  destination a' = destination a
  /\ semi_plan a' = []
  /\ trajectory a' = trajectory a ++ [position a']
  /\ heading a' = compute_heading minimize (extend_semi_plan p a)
  /\ position a'
     = if reached_destination a 3 then position a
       else vadd (position a) (vscale ts (heading a')).
Proof.
  intros a'. unfold a', move_one.
  rewrite reached_destination_resolve.
  destruct (reached_destination a 3); cbn [negb]; repeat split; reflexivity.
Qed.

Lemma run_one_step_clock (s : Simulation) :
  step (run_one_step minimize s).1 = (step s + 1)%Z
  /\ time (run_one_step minimize s).1 = time s + time_step s
  /\ area_size (run_one_step minimize s).1 = area_size s.
Proof.
  rewrite run_one_step_closed. cbv zeta. cbn [fst].
  rewrite check_separation_closed. repeat split; reflexivity.
Qed.

(** X16. A step advances [step] by one and [time] by [time_step], and
    leaves the separation distance, the lookahead, the time step, the area
    size and the number of aircraft as they were. *)
Theorem run_one_step_bookkeeping (s : Simulation) :
  let s' := (run_one_step minimize s).1 in
  step s' = (step s + 1)%Z
  /\ time s' = time s + time_step s
  /\ d s' = d s /\ tau s' = tau s /\ time_step s' = time_step s
  /\ area_size s' = area_size s
  /\ length (aircraft s') = length (aircraft s).
Proof.
  cbv zeta. destruct (run_one_step_clock s) as (H1 & H2 & H3).
  destruct (run_one_step_parameters minimize s) as (H4 & H5 & H6 & H7).
  repeat split; assumption.
Qed.

(** X17. After a step every aircraft keeps its destination, has an empty
    constraint set (whatever it held before), has its new position appended
    to its trajectory, and has either stayed in place, when it was within 3
    of its destination at the start of the step, or advanced by [time_step]
    times its new heading. *)
Theorem run_one_step_aircraft_update (s : Simulation) (i : nat) (a : Aircraft) :
  aircraft s !! i = Some a ->
  exists a',
    aircraft (run_one_step minimize s).1 !! i = Some a'
    /\ destination a' = destination a
    /\ semi_plan a' = []
    /\ trajectory a' = trajectory a ++ [position a']
    /\ position a'
       = if reached_destination a 3 then position a
         else vadd (position a) (vscale (time_step s) (heading a')).
Proof.
  intros Ha. eexists. split; [apply run_one_step_lookup, Ha|].
  match goal with
  | |- context [move_one ?ts (resolve_aircraft minimize (extend_semi_plan ?p a))] =>
      destruct (move_one_resolve ts p a) as (H1 & H2 & H3 & _ & H5)
  end.
  repeat split; assumption.
Qed.

End StepFrame.

Lemma run_one_step_aircraft_update_witness :
  exists a',
    aircraft (run_one_step solver_x0 encounter).1 !! 1%nat = Some a'
    /\ destination a' = destination ac_east
    /\ semi_plan a' = []
    /\ trajectory a' = trajectory ac_east ++ [position a']
    /\ position a'
       = if reached_destination ac_east 3 then position ac_east
         else vadd (position ac_east)
                   (vscale (time_step encounter) (heading a')).
Proof.
  apply (run_one_step_aircraft_update solver_x0 encounter 1 ac_east).
  reflexivity.
Defined.

(** *** Counters *)

Lemma length_row (i N : nat) : length (row i N) = (N - S i)%nat.
Proof. unfold row. rewrite length_fmap, length_seq. reflexivity. Qed.

Lemma length_pairs_upto (N i : nat) :
  (i <= N)%nat ->
  (2 * Z.of_nat (length (pairs_upto N i))
   = Z.of_nat i * (2 * Z.of_nat N - Z.of_nat i - 1))%Z.
Proof.
  induction i as [|i IH]; intros Hi; [reflexivity|].
  rewrite pairs_upto_S, length_app, length_row, Nat2Z.inj_add.
  rewrite Z.mul_add_distr_l, IH by lia. lia.
Qed.

Lemma length_all_pairs (N : nat) :
  (2 * Z.of_nat (length (all_pairs N)) = Z.of_nat N * (Z.of_nat N - 1))%Z.
Proof.
  rewrite <- pairs_upto_all, length_pairs_upto by lia. lia.
Qed.

Lemma count_pairs_bounds (f : nat * nat -> bool) (ps : list (nat * nat)) :
  (0 <= count_pairs f ps <= Z.of_nat (length ps))%Z.
Proof.
  unfold count_pairs. pose proof (List.filter_length_le f ps). lia.
Qed.

Section StepCounters.

Variable minimize : Problem -> OptimizeResult.

Lemma run_one_step_alerts (s : Simulation) :
  alerts (run_one_step minimize s).1
  = (alerts s
     + count_pairs (conflict_at (aircraft s) (d s) (tau s))
                   (all_pairs (length (aircraft s))))%Z.
Proof.
  rewrite run_one_step_closed. cbv zeta. cbn [fst].
  rewrite check_separation_closed. reflexivity.
Qed.

(** X18. In one step of a simulation of [N] aircraft, [alerts] and
    [separation_losses] each grow by at least 0 and at most the number
    [N (N - 1) / 2] of unordered pairs. *)
Theorem run_one_step_counters_bounded (s : Simulation) :
  let s' := (run_one_step minimize s).1 in
  let N := Z.of_nat (length (aircraft s)) in
  (alerts s <= alerts s')%Z
  /\ (2 * (alerts s' - alerts s) <= N * (N - 1))%Z
  /\ (separation_losses s <= separation_losses s')%Z
  /\ (2 * (separation_losses s' - separation_losses s) <= N * (N - 1))%Z.
Proof.
  cbv zeta. rewrite run_one_step_alerts, run_one_step_separation_losses.
  pose proof (length_all_pairs (length (aircraft s))) as HN.
  pose proof (count_pairs_bounds (conflict_at (aircraft s) (d s) (tau s))
                (all_pairs (length (aircraft s)))) as H1.
  pose proof (count_pairs_bounds
                (close_at (aircraft (run_one_step minimize s).1) (d s))
                (all_pairs (length (aircraft s)))) as H2.
  lia.
Qed.

(** *** A step without conflict *)

Lemma accumulated_no_conflict (l : list Aircraft) (D T : R) (N k : nat) :
  (forall p, p ∈ all_pairs N -> conflict_at l D T p = false) ->
  (forall p, p ∈ all_pairs N -> valid_pair (length l) p) ->
  accumulated l D T (all_pairs N) k = [].
Proof.
  intros Hc Hv. unfold accumulated. apply flat_map_nil_elem. intros p Hp.
  specialize (Hc p Hp). destruct (Hv p Hp) as (_ & H1 & H2).
  destruct (lookup_lt_is_Some_2 _ _ H1) as [ai Hai].
  destruct (lookup_lt_is_Some_2 _ _ H2) as [aj Haj].
  unfold conflict_at in Hc. rewrite Hai, Haj in Hc.
  unfold piece, plans. rewrite Hai, Haj, compute_semi_plan_eq. cbv zeta.
  rewrite Hc. destruct (k =? p.1)%nat, (k =? p.2)%nat; reflexivity.
Qed.

Lemma all_pairs_valid (N : nat) (p : nat * nat) :
  p ∈ all_pairs N -> valid_pair N p.
Proof. intros H. apply elem_of_all_pairs in H. unfold valid_pair. lia. Qed.

(** X19. When every constraint set is empty and no pair of aircraft is in
    conflict at the start of a step, the step does not call the solver:
    every aircraft takes the unit vector toward its destination as heading
    and moves with it (unless it has arrived), and [alerts] is unchanged. *)
Theorem run_one_step_no_conflict (s : Simulation) :
  Forall (fun a => semi_plan a = []) (aircraft s) ->
  (forall i j ai aj,
      (i < j)%nat -> aircraft s !! i = Some ai -> aircraft s !! j = Some aj ->
      (detect_conflict ai aj (d s) (tau s)).1 = false) ->
  aircraft (run_one_step minimize s).1
  = (fun a => move_one (time_step s)
                (set_semi_plan [] (set_heading (toward_destination a) a)))
      <$> aircraft s
  /\ alerts (run_one_step minimize s).1 = alerts s.
Proof.
  intros Hsp Hno.
  assert (Hc : forall p, p ∈ all_pairs (length (aircraft s)) ->
                         conflict_at (aircraft s) (d s) (tau s) p = false).
  { intros p Hp. pose proof (all_pairs_valid _ _ Hp) as (_ & H1 & H2).
    apply elem_of_all_pairs in Hp.
    destruct (lookup_lt_is_Some_2 _ _ H1) as [ai Hai].
    destruct (lookup_lt_is_Some_2 _ _ H2) as [aj Haj].
    unfold conflict_at. rewrite Hai, Haj.
    apply (Hno p.1 p.2); [lia|assumption|assumption]. }
  split.
  - rewrite run_one_step_aircraft. apply list_eq. intros k.
    rewrite list_lookup_imap, list_lookup_fmap.
    destruct (aircraft s !! k) as [a|] eqn:Ha; [|reflexivity].
    cbn [fmap option_fmap option_map]. do 2 f_equal.
    rewrite accumulated_no_conflict, extend_semi_plan_nil
      by (exact Hc || apply all_pairs_valid).
    unfold resolve_aircraft, compute_heading.
    rewrite (proj1 (Forall_lookup _ _) Hsp k a Ha). reflexivity.
  - rewrite run_one_step_alerts.
    rewrite (count_pairs_ext_elem _ (fun _ => false)) by exact Hc.
    unfold count_pairs.
    assert (H0 : List.filter (fun _ : nat * nat => false)
                   (all_pairs (length (aircraft s))) = [])
      by (clear; induction (all_pairs (length (aircraft s))) as [|x l IH];
          [reflexivity|exact IH]).
    rewrite H0. cbn. lia.
Qed.

End StepCounters.

Lemma parting_no_conflict :
  (detect_conflict ac_left ac_right (d parting) (tau parting)).1 = false.
Proof.
  apply (diverging_no_conflict ac_left ac_right 5 3 (1 / 4)).
  - intros H. injection H as H. lra.
  - lra.
  - lra.
  - unfold vsub, vscale, ac_left, ac_right, new_aircraft;
      cbn [fst snd heading position]. apply vec_eq; lra.
Qed.

Lemma run_one_step_no_conflict_witness :
  aircraft (run_one_step solver_x0 parting).1
  = (fun a => move_one (time_step parting)
                (set_semi_plan [] (set_heading (toward_destination a) a)))
      <$> aircraft parting
  /\ alerts (run_one_step solver_x0 parting).1 = alerts parting.
Proof.
  apply (run_one_step_no_conflict solver_x0 parting).
  - repeat constructor.
  - intros i j ai aj Hij Hi Hj.
    destruct i as [|[|i]]; destruct j as [|[|j]];
      try lia; try discriminate.
    injection Hi as <-. injection Hj as <-. exact parting_no_conflict.
Defined.

(** ** Whole runs *)

Section Runs.

Variable minimize : Problem -> OptimizeResult.

Lemma within_epsilon_same (a a' : Aircraft) :
  position a' = position a -> destination a' = destination a ->
  within_epsilon a -> within_epsilon a'.
Proof.
  unfold within_epsilon, distance_to_go. intros -> -> H. exact H.
Qed.

(** An aircraft within the tolerance is left in place by a step. *)
Lemma run_one_step_arrived (s : Simulation) (i : nat) (a : Aircraft) :
  aircraft s !! i = Some a -> within_epsilon a ->
  exists a', aircraft (run_one_step minimize s).1 !! i = Some a'
             /\ position a' = position a
             /\ destination a' = destination a
             /\ trajectory a' = trajectory a ++ [position a].
Proof.
  intros Ha Hw. eexists. split; [apply (run_one_step_lookup minimize), Ha|].
  match goal with
  | |- context [move_one ?ts (resolve_aircraft minimize (extend_semi_plan ?p a))] =>
      destruct (move_one_resolve minimize ts p a) as (H1 & _ & H3 & _ & H5)
  end.
  apply reached_destination_true_iff in Hw. rewrite Hw in H5.
  rewrite H5 in H3. auto.
Qed.

(** X20. Arrival is absorbing: an aircraft that is within 3 of its
    destination keeps its position and its destination in every later
    state of the run. *)
Theorem arrival_is_absorbing (k : nat) (s : Simulation) (i : nat) (a : Aircraft) :
  aircraft s !! i = Some a -> within_epsilon a ->
  exists a_k, aircraft (iterate_steps minimize k s) !! i = Some a_k
              /\ position a_k = position a
              /\ destination a_k = destination a.
Proof.
  revert s a. induction k as [|k IH]; intros s a Ha Hw.
  - exists a. auto.
  - destruct (run_one_step_arrived s i a Ha Hw) as (a1 & Ha1 & Hp & Hd & _).
    destruct (IH _ a1 Ha1 (within_epsilon_same a a1 Hp Hd Hw))
      as (ak & Hak & Hpk & Hdk).
    exists ak. cbn [iterate_steps]. split; [exact Hak|]. split; congruence.
Qed.

Lemma run_one_step_done_arrived (s : Simulation) :
  (run_one_step minimize s).2 = true ->
  Forall within_epsilon (aircraft s)
  /\ Forall within_epsilon (aircraft (run_one_step minimize s).1).
Proof.
  rewrite run_one_step_done, forallb_reached_iff. intros H. split; [exact H|].
  apply Forall_lookup. intros i a' Hi.
  assert (Hlt : (i < length (aircraft s))%nat).
  { apply lookup_lt_Some in Hi.
    destruct (run_one_step_parameters minimize s) as (_ & _ & _ & Hlen). lia. }
  destruct (lookup_lt_is_Some_2 _ _ Hlt) as [a Ha].
  pose proof (proj1 (Forall_lookup _ _) H i a Ha) as Hw.
  destruct (run_one_step_arrived s i a Ha Hw) as (a1 & Ha1 & Hp & Hd & _).
  rewrite Hi in Ha1. injection Ha1 as <-.
  apply (within_epsilon_same a a' Hp Hd Hw).
Qed.

(** X21. When [run] terminates, every aircraft is within 3 of its
    destination in the final state. *)
Theorem run_terminates_arrived (fuel : nat) (s s' : Simulation) :
  run minimize fuel s = Some s' -> Forall within_epsilon (aircraft s').
Proof.
  revert s. induction fuel as [|fuel IH]; intros s Hrun; [discriminate|].
  rewrite run_S in Hrun.
  destruct ((run_one_step minimize s).2) eqn:Hd.
  - injection Hrun as <-. apply run_one_step_done_arrived, Hd.
  - apply (IH _ Hrun).
Qed.

Lemma iterate_steps_clock (k : nat) (s : Simulation) :
  step (iterate_steps minimize k s) = (step s + Z.of_nat k)%Z
  /\ time (iterate_steps minimize k s) = time s + INR k * time_step s
  /\ time_step (iterate_steps minimize k s) = time_step s.
Proof.
  revert s. induction k as [|k IH]; intros s.
  - cbn [iterate_steps INR]. repeat split; [lia|lra].
  - cbn [iterate_steps]. destruct (IH (run_one_step minimize s).1) as (H1 & H2 & H3).
    destruct (run_one_step_clock minimize s) as (Hs & Ht & _).
    destruct (run_one_step_parameters minimize s) as (_ & _ & Hts & _).
    rewrite H1, H2, H3, Hs, Ht, Hts, S_INR, Nat2Z.inj_succ.
    repeat split; [lia|lra].
Qed.

(** X22. When [run] terminates it has called [run_one_step] some number
    [k >= 1] of times, at most the fuel; the call number [k] is the first
    one that returns [done = true]; [step] has grown by [k] and [time] by
    [k] times [time_step]. *)
Theorem run_terminates_counts (fuel : nat) (s s' : Simulation) :
  run minimize fuel s = Some s' ->
  exists k,
    (k < fuel)%nat
    /\ s' = iterate_steps minimize (S k) s
    /\ (run_one_step minimize (iterate_steps minimize k s)).2 = true
    /\ (forall j, (j < k)%nat ->
                  (run_one_step minimize (iterate_steps minimize j s)).2 = false)
    /\ step s' = (step s + Z.of_nat (S k))%Z
    /\ time s' = time s + INR (S k) * time_step s.
Proof.
  intros Hrun.
  assert (H : exists k,
             (k < fuel)%nat
             /\ s' = iterate_steps minimize (S k) s
             /\ (run_one_step minimize (iterate_steps minimize k s)).2 = true
             /\ (forall j, (j < k)%nat ->
                   (run_one_step minimize (iterate_steps minimize j s)).2 = false)).
  { revert s Hrun. induction fuel as [|fuel IH]; intros s Hrun; [discriminate|].
    rewrite run_S in Hrun.
    destruct ((run_one_step minimize s).2) eqn:Hd.
    - injection Hrun as <-. exists 0%nat.
      split; [lia|]. split; [reflexivity|]. split; [exact Hd|]. intros j Hj. lia.
    - destruct (IH _ Hrun) as (k & Hk & Hs' & Hdone & Hnot).
      exists (S k). split; [lia|]. split; [exact Hs'|]. split; [exact Hdone|].
      intros [|j] Hj; [exact Hd|]. apply Hnot. lia. }
  destruct H as (k & Hk & Hs' & Hdone & Hnot). exists k.
  destruct (iterate_steps_clock (S k) s) as (H1 & H2 & _).
  rewrite Hs'. auto 10.
Qed.

(** X23. When every aircraft is already within 3 of its destination, [run]
    stops after a single step, in which no aircraft moves; each trajectory
    receives the unchanged position once more. *)
Theorem run_all_arrived (fuel : nat) (s : Simulation) :
  Forall within_epsilon (aircraft s) ->
  run minimize (S fuel) s = Some (run_one_step minimize s).1
  /\ forall i a, aircraft s !! i = Some a ->
       exists a', aircraft (run_one_step minimize s).1 !! i = Some a'
                  /\ position a' = position a
                  /\ trajectory a' = trajectory a ++ [position a].
Proof.
  intros Hw. split.
  - rewrite run_S, run_one_step_done.
    rewrite (proj2 (forallb_reached_iff _) Hw). reflexivity.
  - intros i a Ha.
    destruct (run_one_step_arrived s i a Ha (proj1 (Forall_lookup _ _) Hw i a Ha))
      as (a' & Ha' & Hp & _ & Ht).
    exists a'. auto.
Qed.

End Runs.

Lemma arrived_within : within_epsilon arrived_aircraft.
Proof.
  unfold within_epsilon, distance_to_go, arrived_aircraft, new_aircraft;
    cbn [destination position].
  assert (H : norm (vsub (2, 0) (0, 0)) = 2).
  { apply norm_eq; [lra|]. unfold vsub; cbn [fst snd]. lra. }
  rewrite H. lra.
Qed.

Lemma arrived_run :
  run solver_x0 1 arrived = Some (run_one_step solver_x0 arrived).1.
Proof.
  rewrite run_S, run_one_step_done.
  assert (H : forallb (fun a => reached_destination a 3) (aircraft arrived) = true).
  { apply forallb_reached_iff. constructor; [exact arrived_within|constructor]. }
  rewrite H. reflexivity.
Qed.

Lemma arrival_is_absorbing_witness :
  exists a_k, aircraft (iterate_steps solver_x0 5 arrived) !! 0%nat = Some a_k
              /\ position a_k = position arrived_aircraft
              /\ destination a_k = destination arrived_aircraft.
Proof.
  apply (arrival_is_absorbing solver_x0 5 arrived 0 arrived_aircraft).
  - reflexivity.
  - exact arrived_within.
Defined.

Lemma run_terminates_arrived_witness :
  Forall within_epsilon (aircraft (run_one_step solver_x0 arrived).1).
Proof.
  apply (run_terminates_arrived solver_x0 1 arrived). exact arrived_run.
Defined.

Lemma run_terminates_counts_witness :
  exists k,
    (k < 1)%nat
    /\ (run_one_step solver_x0 arrived).1 = iterate_steps solver_x0 (S k) arrived
    /\ (run_one_step solver_x0 (iterate_steps solver_x0 k arrived)).2 = true
    /\ (forall j, (j < k)%nat ->
          (run_one_step solver_x0 (iterate_steps solver_x0 j arrived)).2 = false)
    /\ step (run_one_step solver_x0 arrived).1
       = (step arrived + Z.of_nat (S k))%Z
    /\ time (run_one_step solver_x0 arrived).1
       = time arrived + INR (S k) * time_step arrived.
Proof.
  apply (run_terminates_counts solver_x0 1 arrived). exact arrived_run.
Defined.

Lemma run_all_arrived_witness :
  run solver_x0 4 arrived = Some (run_one_step solver_x0 arrived).1.
Proof.
  apply (run_all_arrived solver_x0 3 arrived).
  constructor; [exact arrived_within|constructor].
Defined.
